(** * tienda/models.py: catalogue models and their derived values

    A shallow embedding of the four Django models of [tienda/models.py]
    ([Categoria], [Producto], [StockTalla], [ImagenProducto]) together with
    the properties and [save] hooks they define.

    Conventions.
    - A model instance is a record; the implicit [AutoField] primary key is
      [pk : option positive] ([None] for an instance that was never saved).
    - A table is a finite map from primary keys to rows, a query set is the
      list of rows it yields. A row is the instance as it was written; that
      a price written as an [int] is read back as the [Decimal] of the
      same value is not modelled.
    - Python [int] values are [Z]; [str] values are byte strings holding
      the UTF-8 encoding of the text. The price is a [numero]: it is held
      as an [int] or as a [Decimal], and the two are formatted differently.
    - A call that can raise returns a [py] value: the result, or the
      exception.
    - Nullable [CharField]s are [option string]; Python truthiness of such a
      value is [truthy]. *)

From stdpp Require Import gmap strings list fin_maps sorting.
From Stdlib Require Import ZArith Ascii String.

Local Open Scope Z_scope.

(** ** Python values *)

(** [if s:] for a [str]: only the empty string is falsy. *)
Definition str_truthy (s : string) : bool :=
  match s with
  | EmptyString => false
  | String _ _ => true
  end.

(** [if v:] for a value that is [None] or a [str]. *)
Definition truthy (v : option string) : bool :=
  match v with
  | None => false
  | Some s => str_truthy s
  end.

(** ** Exceptions

    The outcome of a call that may raise: [Retorna v] when it returns [v],
    [Lanza e] when it raises [e]. *)

Inductive excepcion : Type :=
  | ValueError
  | OverflowError.

Inductive py (A : Type) : Type :=
  | Retorna (a : A)
  | Lanza (e : excepcion).
Arguments Retorna {A} a.
Arguments Lanza {A} e.

#[global] Instance py_ret : MRet py := λ A a, Retorna a.

#[global] Instance py_bind : MBind py := λ A B f m,
  match m with
  | Retorna a => f a
  | Lanza e => Lanza e
  end.

#[global] Instance py_fmap : FMap py := λ A B f m,
  match m with
  | Retorna a => Retorna (f a)
  | Lanza e => Lanza e
  end.

(** ** Whole-unit amounts

    The value of a [DecimalField(decimal_places=0)] attribute in memory: the
    [int] a caller assigned ([Producto(precio=9990)]), or a [Decimal], which
    is what validation and the database give. A whole-unit [Decimal] is a
    sign and a coefficient, so it has a negative zero. *)

Inductive numero : Type :=
  | PyInt (n : Z)
  | PyDecimal (negativo : bool) (coeficiente : N).

Definition valor (x : numero) : Z :=
  match x with
  | PyInt n => n
  | PyDecimal negativo c => if negativo then - Z.of_N c else Z.of_N c
  end.

(** The sign is clear: an [int] that is [≥ 0], a [Decimal] without the
    minus sign. *)
Definition no_negativo (x : numero) : bool :=
  match x with
  | PyInt n => 0 <=? n
  | PyDecimal negativo _ => negb negativo
  end.

(** ** Query sets

    The part of the ORM the models use: a manager yields the rows of a table,
    [filter] keeps the rows that satisfy a lookup, [exists] tests for a row. *)

Definition qs_all {A} (tabla : gmap positive A) : list A :=
  (map_to_list tabla).*2.

Definition qs_filter {A} (cond : A → bool) (qs : list A) : list A :=
  List.filter cond qs.

Definition qs_exists {A} (qs : list A) : bool :=
  match qs with
  | [] => false
  | _ :: _ => true
  end.

(** Python's builtin [sum] over integers: a left fold from [0]. *)
Definition py_sum (xs : list Z) : Z := fold_left Z.add xs 0.

(** [get_FOO_display]: the label of [valor] in the field's choices,
    [valor] itself when it is not one of them. [dict(choices)] keeps the
    last pair of a repeated key. *)
Definition choices_dict (choices : list (string * string)) : gmap string string :=
  list_to_map (reverse choices).

Definition get_FIELD_display (choices : list (string * string)) (valor : string) : string :=
  default valor (choices_dict choices !! valor).

(** Outcome of writing a row: the new table, or the constraint violation
    the storage layer raises. *)
Inductive resultado (T : Type) : Type :=
  | Guardado (tabla : T)
  | IntegrityError.
Arguments Guardado {T} tabla.
Arguments IntegrityError {T}.

(** ** Categoria *)

Module Categoria.

Record t : Type := Build {
  pk : option positive;
  nombre : string;
  tipo : string;
  descripcion : option string;
  activo : bool;
  orden : Z
}.

Definition TIPO_CHOICES : list (string * string) :=
  [ ("polera", "Polera");
    ("pantalon", "Pantalón/Short");
    ("accesorio", "Accesorio") ]%string.

End Categoria.

(** ** StockTalla *)

Module StockTalla.

Record t : Type := Build {
  pk : option positive;
  producto : positive;      (* foreign key: primary key of the Producto *)
  talla : string;
  cantidad : Z
}.

Definition TALLA_CHOICES : list (string * string) :=
  [ ("S", "S"); ("M", "M"); ("L", "L"); ("XL", "XL") ]%string.

(** [estado_stock]: the three-way classification of [cantidad]. *)
Definition estado_stock (self : t) : string :=
  if cantidad self =? 0 then "sin_stock"
  else if cantidad self <=? 5 then "poco_stock"
  else "buen_stock".

End StockTalla.

(** ** Number formatting: the format spec [,.0f]

    [f"{x:,.0f}"] for a whole-unit amount [x]: the sign, then the decimal
    digits in groups of three counted from the right, joined by commas;
    precision [0] leaves no decimal point. A [Decimal] is formatted digit
    for digit. An [int] is converted to a [float] first, which rounds it
    to 53 significant bits and raises [OverflowError] beyond the range of a
    double. *)

(** [float(n)] for an [int]: the nearest double, ties to the even
    significand, given as the integer it equals. *)
Definition float_de_int (n : Z) : py Z :=
  let a := Z.abs n in
  if a <? 2 ^ 53 then Retorna n
  else
    let e := Z.log2 a - 52 in
    let m := Z.shiftr a e in
    let r := a - Z.shiftl m e in
    let mitad := 2 ^ (e - 1) in
    let m' := if (mitad <? r) || ((r =? mitad) && Z.odd m) then m + 1 else m in
    let v := Z.shiftl m' e in
    if 2 ^ 1024 <=? v then Lanza OverflowError
    else Retorna (Z.sgn n * v).

Definition digito (d : Z) : ascii := ascii_of_nat (48 + Z.to_nat d).

(** Decimal digits of [n ≥ 0], least significant first. [fuel] bounds the
    number of digits. *)
Fixpoint cifras_aux (fuel : nat) (n : Z) : list Z :=
  match fuel with
  | O => [n]
  | S fuel' => if n <? 10 then [n] else (n mod 10) :: cifras_aux fuel' (n / 10)
  end.

Definition cifras (n : Z) : list Z := cifras_aux (Z.to_nat (Z.log2 n)) n.

(** Thousands separators on a digit string held least significant first:
    a comma after every full group of three that has more digits to its
    left. *)
Fixpoint insert_thousands_sep (ds : list ascii) : list ascii :=
  match ds with
  | a :: b :: c :: ((_ :: _) as resto) =>
      a :: b :: c :: ","%char :: insert_thousands_sep resto
  | _ => ds
  end.

Definition format_miles (n : Z) : string :=
  string_of_list_ascii (reverse (insert_thousands_sep (digito <$> cifras n))).

Definition con_signo (negativo : bool) (cifras : string) : string :=
  if negativo then "-" +:+ cifras else cifras.

Definition format_coma_0f (x : numero) : py string :=
  match x with
  | PyInt n =>
      v ← float_de_int n;
      mret (con_signo (v <? 0) (format_miles (Z.abs v)))
  | PyDecimal negativo c =>
      mret (con_signo negativo (format_miles (Z.of_N c)))
  end.

(** What "grouped in thousands" says, as a relation between an amount
    [n ≥ 0] and its rendering: below 1000 the amount is written without
    leading zeros; from 1000 on, the rendering of [n / 1000] is followed by
    a comma and the three digits of [n mod 1000]. *)

Definition tres_cifras (m : Z) : string :=
  String (digito (m / 100)) (String (digito (m / 10 mod 10))
    (String (digito (m mod 10)) EmptyString)).

Definition sin_ceros (m : Z) : string :=
  if m <? 10 then String (digito m) EmptyString
  else if m <? 100 then String (digito (m / 10)) (String (digito (m mod 10)) EmptyString)
  else tres_cifras m.

Inductive agrupado : Z → string → Prop :=
  | agrupado_menor n :
      0 ≤ n < 1000 → agrupado n (sin_ceros n)
  | agrupado_miles n s :
      1000 ≤ n → agrupado (n / 1000) s →
      agrupado n (s +:+ "," +:+ tres_cifras (n mod 1000)).

(** ** Percent-encoding: [urllib.parse.quote]

    [quote(s)] with the default [safe='/'] works on the UTF-8 bytes of [s]:
    ASCII letters, digits and [_ . - ~ /] stay, every other byte becomes
    [%XX] in upper-case hexadecimal. *)

Definition es_seguro (c : ascii) : bool :=
  let n := nat_of_ascii c in
  ((65 <=? n) && (n <=? 90) || (97 <=? n) && (n <=? 122) || (48 <=? n) && (n <=? 57)
   || (n =? 95) || (n =? 46) || (n =? 45) || (n =? 126) || (n =? 47))%nat.

Definition hex_digit (n : nat) : ascii :=
  if (n <? 10)%nat then ascii_of_nat (48 + n) else ascii_of_nat (55 + n).

Fixpoint quote (s : string) : string :=
  match s with
  | EmptyString => EmptyString
  | String c resto =>
      if es_seguro c then String c (quote resto)
      else
        let n := nat_of_ascii c in
        String "%" (String (hex_digit (n / 16)) (String (hex_digit (n mod 16)) (quote resto)))
  end.

(** The inverse reading, [urllib.parse.unquote] on bytes: [%XX] with two
    hexadecimal digits is one byte, anything else stands for itself. *)
Definition hex_value (c : ascii) : option nat :=
  let n := nat_of_ascii c in
  if ((48 <=? n) && (n <=? 57))%nat then Some (n - 48)%nat
  else if ((65 <=? n) && (n <=? 70))%nat then Some (n - 55)%nat
  else if ((97 <=? n) && (n <=? 102))%nat then Some (n - 87)%nat
  else None.

Fixpoint unquote (s : string) : string :=
  match s with
  | EmptyString => EmptyString
  | String c t =>
      if Ascii.eqb c "%" then
        match t with
        | String a (String b resto) =>
            match hex_value a, hex_value b with
            | Some x, Some y => String (ascii_of_nat (16 * x + y)) (unquote resto)
            | _, _ => String c (unquote t)
            end
        | _ => String c (unquote t)
        end
      else String c (unquote t)
  end.

Definition nl : string := String "010" EmptyString.

(** ** Producto *)

Module Producto.

Record t : Type := Build {
  pk : option positive;
  nombre : string;
  slug : string;
  descripcion : string;
  categoria : Categoria.t;   (* the related Categoria, as [self.categoria] loads it *)
  precio : numero;           (* DecimalField with decimal_places=0 *)
  activo : bool;
  destacado : bool;
  fecha_creacion : Z;
  fecha_actualizacion : Z;
  tipo_pantalon : option string;
  tipo_accesorio : option string;
  material : option string;
  dimensiones : option string;
  color : option string;
  stock_accesorio : Z;
  caracteristicas : option string
}.

Definition TIPO_PANTALON_CHOICES : list (string * string) :=
  [ ("short", "Short"); ("pantalon_largo", "Pantalón Largo"); ("jogger", "Jogger") ]%string.

Definition TIPO_ACCESORIO_CHOICES : list (string * string) :=
  [ ("mochila", "Mochila");
    ("cinturon", "Cinturón");
    ("cartera", "Cartera");
    ("cadena", "Cadena");
    ("gorra", "Gorra");
    ("llavero", "Llavero");
    ("billetera", "Billetera");
    ("riñonera", "Riñonera");
    ("collar", "Collar");
    ("pulsera", "Pulsera");
    ("anillo", "Anillo");
    ("bolso", "Bolso");
    ("otro", "Otro") ]%string.

(** Attribute assignments [self.slug = v], [self.nombre = v]. *)
Definition set_slug (v : string) (self : t) : t :=
  Build (pk self) (nombre self) v (descripcion self) (categoria self) (precio self)
    (activo self) (destacado self) (fecha_creacion self) (fecha_actualizacion self)
    (tipo_pantalon self) (tipo_accesorio self) (material self) (dimensiones self)
    (color self) (stock_accesorio self) (caracteristicas self).

Definition set_nombre (v : string) (self : t) : t :=
  Build (pk self) v (slug self) (descripcion self) (categoria self) (precio self)
    (activo self) (destacado self) (fecha_creacion self) (fecha_actualizacion self)
    (tipo_pantalon self) (tipo_accesorio self) (material self) (dimensiones self)
    (color self) (stock_accesorio self) (caracteristicas self).

(** What the inherited [Model.save] writes into the instance: the primary
    key and the two automatic timestamps. *)
Definition set_guardado (k : option positive) (creacion actualizacion : Z) (self : t) : t :=
  Build k (nombre self) (slug self) (descripcion self) (categoria self) (precio self)
    (activo self) (destacado self) creacion actualizacion
    (tipo_pantalon self) (tipo_accesorio self) (material self) (dimensiones self)
    (color self) (stock_accesorio self) (caracteristicas self).

(** *** Meta.ordering *)

Definition ordering : list string := [ "-destacado"; "-fecha_creacion" ]%string.

(** The sort key of a column: booleans order [False < True]. *)
Definition clave (campo : string) (p : t) : Z :=
  if String.eqb campo "destacado" then Z.b2z (destacado p)
  else if String.eqb campo "fecha_creacion" then fecha_creacion p
  else if String.eqb campo "fecha_actualizacion" then fecha_actualizacion p
  else if String.eqb campo "activo" then Z.b2z (activo p)
  else if String.eqb campo "precio" then valor (precio p)
  else if String.eqb campo "stock_accesorio" then stock_accesorio p
  else 0.

(** One term of an ordering: a leading [-] sorts descending. *)
Definition compara_campo (termino : string) (a b : t) : comparison :=
  match termino with
  | String "-" campo => clave campo b ?= clave campo a
  | campo => clave campo a ?= clave campo b
  end.

(** [ORDER BY] over several terms: the first term that tells the rows apart
    decides. *)
Fixpoint compara (terminos : list string) (a b : t) : comparison :=
  match terminos with
  | [] => Eq
  | termino :: resto =>
      match compara_campo termino a b with
      | Eq => compara resto a b
      | c => c
      end
  end.

Definition precede (a b : t) : Prop :=
  compara ordering a b ≠ Gt.

#[global] Instance precede_dec a b : Decision (precede a b).
Proof. unfold precede. destruct (compara ordering a b); [left|left|right]; congruence. Defined.

(** The default listing, [Producto.objects.all()]: every row, sorted by
    [Meta.ordering]. *)
Definition listado (tabla : gmap positive t) : list t :=
  merge_sort precede (qs_all tabla).

(** *** save *)

Section Save.

(** [django.utils.text.slugify], imported by the module. *)
Variable slugify : string → string.

(** The clock behind [auto_now] and [auto_now_add]. *)
Variable ahora : Z.

(** [slug] is [unique=True]: a write is refused when another row holds the
    same slug. *)
Definition slug_ocupado (tabla : gmap positive t) (k : positive) (s : string) : bool :=
  qs_exists (qs_filter (λ kr : positive * t, negb (Pos.eqb kr.1 k) && String.eqb (slug kr.2) s)
               (map_to_list tabla)).

(** The inherited [Model.save]: refresh the timestamps, then update the row
    of the instance's primary key or insert a new row. *)
Definition Model_save (tabla : gmap positive t) (self : t) : t * resultado (gmap positive t) :=
  let k := match pk self with
           | Some k => k
           | None => fresh (dom tabla)
           end in
  let alta := bool_decide (tabla !! k = None) in
  let creacion := if alta then ahora else fecha_creacion self in
  if slug_ocupado tabla k (slug self)
  then (set_guardado (pk self) creacion ahora self, IntegrityError)
  else
    let self' := set_guardado (Some k) creacion ahora self in
    (self', Guardado (<[k := self']> tabla)).

Definition save (tabla : gmap positive t) (self : t) : t * resultado (gmap positive t) :=
  let self := if negb (str_truthy (slug self))
              then set_slug (slugify (nombre self)) self
              else self in
  Model_save tabla self.

End Save.

(** *** Stock *)

(** The StockTalla rows whose foreign key is [k]. *)
Definition stock_tallas_de (tabla : gmap positive StockTalla.t) (k : positive) :
    list StockTalla.t :=
  qs_filter (λ st, Pos.eqb (StockTalla.producto st) k) (qs_all tabla).

(** The related manager [self.stock_tallas]: the rows of this product. On
    an instance without a primary key the manager cannot be used and
    raises [ValueError]. *)
Definition stock_tallas (tabla : gmap positive StockTalla.t) (self : t) :
    py (list StockTalla.t) :=
  match pk self with
  | Some k => Retorna (stock_tallas_de tabla k)
  | None => Lanza ValueError
  end.

Definition tiene_stock (tabla : gmap positive StockTalla.t) (self : t) : py bool :=
  if String.eqb (Categoria.tipo (categoria self)) "accesorio"
  then Retorna (0 <? stock_accesorio self)
  else
    qs ← stock_tallas tabla self;
    mret (qs_exists (qs_filter (λ st, 0 <? StockTalla.cantidad st) qs)).

Definition stock_total (tabla : gmap positive StockTalla.t) (self : t) : py Z :=
  if String.eqb (Categoria.tipo (categoria self)) "accesorio"
  then Retorna (stock_accesorio self)
  else
    qs ← stock_tallas tabla self;
    mret (py_sum (StockTalla.cantidad <$> qs)).

(** *** Price and contact link *)

Definition precio_formateado (self : t) : py string :=
  precio_txt ← format_coma_0f (precio self);
  mret ("$" +:+ precio_txt).

Definition get_tipo_pantalon_display (self : t) : string :=
  get_FIELD_display TIPO_PANTALON_CHOICES (default EmptyString (tipo_pantalon self)).

Definition get_tipo_accesorio_display (self : t) : string :=
  get_FIELD_display TIPO_ACCESORIO_CHOICES (default EmptyString (tipo_accesorio self)).

(** The local variable [mensaje] of [get_whatsapp_url] when it is quoted;
    formatting the price is the one step that can raise. *)
Definition mensaje_whatsapp (self : t) (talla : option string) : py string :=
  let mensaje := "Hola! Estoy interesado en: *" +:+ nombre self +:+ "*" +:+ nl in
  precio_txt ← format_coma_0f (precio self);
  let mensaje := mensaje +:+ ("Precio: $" +:+ precio_txt +:+ nl) in
  let mensaje := if truthy talla
                 then mensaje +:+ ("Talla: " +:+ default EmptyString talla +:+ nl)
                 else mensaje in
  let mensaje := if truthy (tipo_pantalon self)
                 then mensaje +:+ ("Tipo: " +:+ get_tipo_pantalon_display self +:+ nl)
                 else mensaje in
  let mensaje := if truthy (tipo_accesorio self)
                 then mensaje +:+ ("Tipo: " +:+ get_tipo_accesorio_display self +:+ nl)
                 else mensaje in
  let mensaje := if truthy (color self)
                 then mensaje +:+ ("Color: " +:+ default EmptyString (color self) +:+ nl)
                 else mensaje in
  mret (mensaje +:+ (nl +:+ "¿Está disponible?")).

Definition get_whatsapp_url (self : t) (talla : option string) : py string :=
  mensaje ← mensaje_whatsapp self talla;
  let mensaje_encoded := quote mensaje in
  mret ("https://wa.me/56992154182?text=" +:+ mensaje_encoded).

End Producto.

(** ** ImagenProducto *)

Module ImagenProducto.

Record t : Type := Build {
  pk : option positive;
  producto : positive;      (* foreign key: primary key of the Producto *)
  imagen : string;          (* path of the stored file *)
  orden : Z;
  es_principal : bool
}.

Definition set_es_principal (v : bool) (self : t) : t :=
  Build (pk self) (producto self) (imagen self) (orden self) v.

Definition set_pk (k : option positive) (self : t) : t :=
  Build k (producto self) (imagen self) (orden self) (es_principal self).

(** [objects.filter(producto=p, es_principal=True).update(es_principal=False)]:
    every row the filter selects gets the flag cleared, in the table. *)
Definition clear_principal (p : positive) (tabla : gmap positive t) : gmap positive t :=
  (λ fila, if Pos.eqb (producto fila) p && es_principal fila
           then set_es_principal false fila
           else fila) <$> tabla.

(** The key of the row that a save writes: the instance's primary key, or
    a key the table does not use yet. *)
Definition save_key (tabla : gmap positive t) (self : t) : positive :=
  match pk self with
  | Some k => k
  | None => fresh (dom tabla)
  end.

(** The inherited [Model.save]: update the row of the instance's primary
    key, or insert the instance under a new key. *)
Definition Model_save (tabla : gmap positive t) (self : t) : t * gmap positive t :=
  let k := save_key tabla self in
  let self' := set_pk (Some k) self in
  (self', <[k := self']> tabla).

Definition save (tabla : gmap positive t) (self : t) : t * gmap positive t :=
  let tabla := if es_principal self
               then clear_principal (producto self) tabla
               else tabla in
  Model_save tabla self.

(** The rows of product [p] that are flagged as its principal image. *)
Definition principales (tabla : gmap positive t) (p : positive) : gmap positive t :=
  filter (λ kr : positive * t, producto kr.2 = p ∧ es_principal kr.2 = true) tabla.

(** Tables that arise from the empty table by saving images. *)
Inductive alcanzable : gmap positive t → Prop :=
  | alcanzable_vacia : alcanzable ∅
  | alcanzable_save tabla self :
      alcanzable tabla → alcanzable (save tabla self).2.

(** *** Meta.ordering *)

Definition ordering : list string := [ "-es_principal"; "orden" ]%string.

Definition clave (campo : string) (i : t) : Z :=
  if String.eqb campo "es_principal" then Z.b2z (es_principal i)
  else if String.eqb campo "orden" then orden i
  else 0.

Definition compara_campo (termino : string) (a b : t) : comparison :=
  match termino with
  | String "-" campo => clave campo b ?= clave campo a
  | campo => clave campo a ?= clave campo b
  end.

Fixpoint compara (terminos : list string) (a b : t) : comparison :=
  match terminos with
  | [] => Eq
  | termino :: resto =>
      match compara_campo termino a b with
      | Eq => compara resto a b
      | c => c
      end
  end.

Definition precede (a b : t) : Prop :=
  compara ordering a b ≠ Gt.

#[global] Instance precede_imagen_dec a b : Decision (precede a b).
Proof. unfold precede. destruct (compara ordering a b); [left|left|right]; congruence. Defined.

(** The related manager [producto.imagenes] ([related_name='imagenes']):
    the images of product [p], in [Meta.ordering]. *)
Definition imagenes (tabla : gmap positive t) (p : positive) : list t :=
  merge_sort precede (qs_filter (λ fila, Pos.eqb (producto fila) p) (qs_all tabla)).

End ImagenProducto.

(** ** A reading of [slugify] on ASCII text

    What [django.utils.text.slugify] does to a name made of ASCII characters:
    lower-case it, drop everything but letters, digits, [_], [-] and white
    space, turn each run of white space and hyphens into one hyphen, and
    strip hyphens and underscores from both ends. It instantiates the
    [slugify] argument of [Producto.save] in the examples. *)

Definition minuscula (c : ascii) : ascii :=
  let n := nat_of_ascii c in
  if ((65 <=? n) && (n <=? 90))%nat then ascii_of_nat (n + 32) else c.

Definition es_palabra (c : ascii) : bool :=
  let n := nat_of_ascii c in
  ((97 <=? n) && (n <=? 122) || (65 <=? n) && (n <=? 90) || (48 <=? n) && (n <=? 57)
   || (n =? 95))%nat.

Definition es_espacio (c : ascii) : bool :=
  let n := nat_of_ascii c in
  ((n =? 32) || (9 <=? n) && (n <=? 13) || (28 <=? n) && (n <=? 31))%nat.

Definition es_guion (c : ascii) : bool := (nat_of_ascii c =? 45)%nat.

(** [re.sub(r'[-\s]+', '-', ...)] *)
Fixpoint une_guiones (cs : list ascii) : list ascii :=
  match cs with
  | [] => []
  | c :: resto =>
      if es_guion c || es_espacio c then
        match resto with
        | d :: _ => if es_guion d || es_espacio d
                    then une_guiones resto
                    else "-"%char :: une_guiones resto
        | [] => [ "-"%char ]
        end
      else c :: une_guiones resto
  end.

(** [.strip('-_')] on one side. *)
Fixpoint lstrip_guiones (cs : list ascii) : list ascii :=
  match cs with
  | c :: resto =>
      if es_guion c || (nat_of_ascii c =? 95)%nat then lstrip_guiones resto else cs
  | [] => []
  end.

Definition slugify_ascii (value : string) : string :=
  let cs := minuscula <$> list_ascii_of_string value in
  let cs := List.filter (λ c, es_palabra c || es_espacio c || es_guion c) cs in
  let cs := une_guiones cs in
  string_of_list_ascii (reverse (lstrip_guiones (reverse (lstrip_guiones cs)))).

(** ** Auxiliary notions for the statements *)

(** The sum of [cantidad] over the rows of the table whose foreign key is
    [k], one row at a time. *)
Definition suma_cantidades (tabla : gmap positive StockTalla.t) (k : option positive) : Z :=
  map_fold (λ _ st acc,
              if bool_decide (Some (StockTalla.producto st) = k)
              then StockTalla.cantidad st + acc
              else acc)
           0 tabla.

(** The rows of a product all pass the [MinValueValidator(0)]. *)
Definition cantidades_validas (tabla : gmap positive StockTalla.t) (p : Producto.t) : Prop :=
  ∀ k st, tabla !! k = Some st →
          Some (StockTalla.producto st) = Producto.pk p →
          0 ≤ StockTalla.cantidad st.

(** Reading an amount back from its rendering: digits accumulate, commas
    are skipped, anything else is refused. *)
Fixpoint lee_monto (acc : Z) (s : string) : option Z :=
  match s with
  | EmptyString => Some acc
  | String c resto =>
      if Ascii.eqb c "," then lee_monto acc resto
      else if ((48 <=? nat_of_ascii c) && (nat_of_ascii c <=? 57))%nat
      then lee_monto (10 * acc + (Z.of_nat (nat_of_ascii c) - 48)) resto
      else None
  end.

Definition lee_precio (s : string) : option Z :=
  match s with
  | String "$" resto => lee_monto 0 resto
  | _ => None
  end.

(** Digits and commas, and strings made of characters of one kind. *)
Definition cifra_o_coma (c : ascii) : bool :=
  Ascii.eqb c "," || ((48 <=? nat_of_ascii c) && (nat_of_ascii c <=? 57))%nat.

Fixpoint todos (cond : ascii → bool) (s : string) : bool :=
  match s with
  | EmptyString => true
  | String c resto => cond c && todos cond resto
  end.

(** The two hexadecimal digits [quote] writes for a byte read back as that
    byte. *)
Definition decode_byte (c : ascii) : option ascii :=
  let n := nat_of_ascii c in
  match hex_value (hex_digit (n / 16)), hex_value (hex_digit (n mod 16)) with
  | Some x, Some y => Some (ascii_of_nat (16 * x + y))
  | _, _ => None
  end.

(** The message as the shop describes it. An optional line is there when
    its value is given and not empty; it ends in a line feed. *)
Definition linea_opcional (rotulo : string) (valor : option string) : string :=
  match valor with
  | Some (String c resto) => rotulo +:+ String c resto +:+ String "010" EmptyString
  | _ => EmptyString
  end.

(** The label that a list of choices pairs with a code; the code stands
    for itself when the list does not have it. *)
Fixpoint etiqueta_de (choices : list (string * string)) (codigo : string) : string :=
  match choices with
  | [] => codigo
  | (c, etiqueta) :: resto =>
      if String.eqb c codigo then etiqueta else etiqueta_de resto codigo
  end.

(** The line of a sub-type: present for a code that is given and not
    empty, showing the label of the code. *)
Definition linea_tipo (choices : list (string * string)) (codigo : option string) : string :=
  match codigo with
  | Some (String c resto) =>
      "Tipo: " +:+ etiqueta_de choices (String c resto) +:+ String "010" EmptyString
  | _ => EmptyString
  end.

(** Formatting does not round the amount: it is a [Decimal], or an [int]
    below [2 ^ 53]. *)
Definition sin_redondeo (x : numero) : bool :=
  match x with
  | PyInt n => Z.abs n <? 2 ^ 53
  | PyDecimal _ _ => true
  end.

(** The price fits the field: [MinValueValidator(0)], [max_digits=10] and
    [decimal_places=0]. *)
Definition precio_valido (x : numero) : Prop :=
  no_negativo x = true ∧ valor x < 10 ^ 10.

(** ** Sample data

    A small catalogue used to run the definitions: a T-shirt with stock in
    one size, a belt sold as an accessory, and two images of the T-shirt. *)

Module Muestra.

Definition poleras : Categoria.t :=
  Categoria.Build (Some 1%positive) "Poleras" "polera" None true 0.

Definition accesorios : Categoria.t :=
  Categoria.Build (Some 2%positive) "Accesorios" "accesorio" None true 1.

Definition polera_negra : Producto.t :=
  Producto.Build (Some 1%positive) "Polera Negra" "polera-negra" "Polera de algodon"
    poleras (PyDecimal false 9990) true false 100 100 None None None None None 0 None.

Definition cinturon : Producto.t :=
  Producto.Build (Some 2%positive) "Cinturon" "cinturon" "Cinturon de cuero"
    accesorios (PyInt 15000) true true 50 60 None (Some "cinturon"%string)
    (Some "Cuero"%string) None (Some "Negro"%string) 0 None.

Definition camiseta_nueva : Producto.t :=
  Producto.Build None "Camiseta Roja" "" "Camiseta" poleras (PyInt 12000) true false 0 0
    None None None None None 0 None.

Definition jogger_gris : Producto.t :=
  Producto.Build (Some 3%positive) "Jogger Gris" "jogger-gris" "Jogger"
    (Categoria.Build (Some 3%positive) "Pantalones" "pantalon" None true 2)
    (PyDecimal false 19990) true false 200 200 (Some "jogger"%string) None None None None 0 None.

Definition productos : gmap positive Producto.t :=
  <[1%positive := polera_negra]> (<[2%positive := cinturon]> (<[3%positive := jogger_gris]> ∅)).

(** Sizes S, M and L of the T-shirt with 0, 3 and 0 units, and a stray row
    that points at the belt. *)
Definition stock : gmap positive StockTalla.t :=
  <[1%positive := StockTalla.Build (Some 1%positive) 1 "S" 0]>
  (<[2%positive := StockTalla.Build (Some 2%positive) 1 "M" 3]>
  (<[3%positive := StockTalla.Build (Some 3%positive) 1 "L" 0]>
  (<[4%positive := StockTalla.Build (Some 4%positive) 2 "M" 7]> ∅))).

Definition imagen_A : ImagenProducto.t :=
  ImagenProducto.Build (Some 1%positive) 1 "productos/a.png" 0 true.

Definition imagen_B : ImagenProducto.t :=
  ImagenProducto.Build (Some 2%positive) 1 "productos/b.png" 1 false.

Definition imagenes : gmap positive ImagenProducto.t :=
  <[1%positive := imagen_A]> (<[2%positive := imagen_B]> ∅).

End Muestra.

(** * Properties *)

(** ** Python values and query sets *)

Lemma str_truthy_true s : str_truthy s = true ↔ s ≠ EmptyString.
Proof. destruct s; simpl; split; congruence. Qed.

Lemma elem_of_qs_all {A} (tabla : gmap positive A) (x : A) :
  x ∈ qs_all tabla ↔ ∃ k, tabla !! k = Some x.
Proof.
  unfold qs_all. rewrite list_elem_of_fmap. split.
  - intros [[k y] [-> Hin]]. exists k. by apply elem_of_map_to_list.
  - intros [k Hk]. exists (k, x). split; [done|]. by apply elem_of_map_to_list.
Qed.

Lemma qs_all_empty {A} : qs_all (∅ : gmap positive A) = [].
Proof. unfold qs_all. by rewrite map_to_list_empty. Qed.

Lemma qs_exists_true {A} (qs : list A) : qs_exists qs = true ↔ ∃ x, x ∈ qs.
Proof.
  destruct qs as [|x qs]; simpl.
  - split; [done|]. intros [x Hx]. by apply not_elem_of_nil in Hx.
  - split; [|done]. intros _. exists x. apply list_elem_of_here.
Qed.

Lemma elem_of_qs_filter {A} (cond : A → bool) (qs : list A) (x : A) :
  x ∈ qs_filter cond qs ↔ x ∈ qs ∧ cond x = true.
Proof. unfold qs_filter. rewrite !list_elem_of_In. apply filter_In. Qed.

(** The accumulator of [sum] can be pulled out of the fold. *)
Lemma fold_left_add_acc (xs : list Z) (a : Z) :
  fold_left Z.add xs a = a + fold_left Z.add xs 0.
Proof.
  revert a. induction xs as [|x xs IH]; intros a; simpl; [lia|].
  rewrite (IH (a + x)), (IH (0 + x)). lia.
Qed.

Lemma py_sum_cons (x : Z) (xs : list Z) : py_sum (x :: xs) = x + py_sum xs.
Proof. unfold py_sum. simpl. apply fold_left_add_acc. Qed.

(** [sum] does not depend on the order in which the rows come. *)
Lemma py_sum_Permutation (xs ys : list Z) : xs ≡ₚ ys → py_sum xs = py_sum ys.
Proof.
  induction 1 as [|x xs ys _ IH|x y xs|xs ys zs _ IH1 _ IH2].
  - done.
  - rewrite !py_sum_cons. lia.
  - rewrite !py_sum_cons. lia.
  - congruence.
Qed.

(** ** StockTalla.estado_stock *)

(** The three outcomes exclude each other. *)
Lemma estado_stock_cases (s : StockTalla.t) :
  (StockTalla.cantidad s = 0 ∧ StockTalla.estado_stock s = "sin_stock"%string)
  ∨ (StockTalla.cantidad s ≠ 0 ∧ StockTalla.cantidad s ≤ 5
     ∧ StockTalla.estado_stock s = "poco_stock"%string)
  ∨ (5 < StockTalla.cantidad s ∧ StockTalla.estado_stock s = "buen_stock"%string).
Proof.
  unfold StockTalla.estado_stock.
  destruct (Z.eqb_spec (StockTalla.cantidad s) 0) as [H0|H0]; [by left|].
  destruct (Z.leb_spec (StockTalla.cantidad s) 5) as [H5|H5].
  - right; left. done.
  - right; right. done.
Qed.

(** C5: for a quantity [≥ 0], [estado_stock] is ['sin_stock'] exactly at 0,
    ['poco_stock'] exactly on 1..5 and ['buen_stock'] exactly above 5; so 5
    is low stock and 6 is good stock. *)
Theorem estado_stock_spec (s : StockTalla.t) :
  0 ≤ StockTalla.cantidad s →
  (StockTalla.estado_stock s = "sin_stock"%string ↔ StockTalla.cantidad s = 0)
  ∧ (StockTalla.estado_stock s = "poco_stock"%string ↔ 1 ≤ StockTalla.cantidad s ≤ 5)
  ∧ (StockTalla.estado_stock s = "buen_stock"%string ↔ 5 < StockTalla.cantidad s)
  ∧ (StockTalla.cantidad s = 5 → StockTalla.estado_stock s = "poco_stock"%string)
  ∧ (StockTalla.cantidad s = 6 → StockTalla.estado_stock s = "buen_stock"%string).
Proof.
  intros Hpos.
  destruct (estado_stock_cases s) as [[Hc ->]|[(Hc0 & Hc5 & ->)|[Hc ->]]];
    repeat split; intros; try lia; try done.
Qed.

Lemma estado_stock_spec_witness :
  StockTalla.estado_stock (StockTalla.Build (Some 1%positive) 1 "M" 5) = "poco_stock"%string.
Proof.
  pose (s := StockTalla.Build (Some 1%positive) 1 "M" 5).
  assert (Hpos : 0 ≤ StockTalla.cantidad s) by (simpl; lia).
  destruct (estado_stock_spec s Hpos) as (_ & _ & _ & H5 & _).
  apply H5. reflexivity.
Defined.

(** C10: [estado_stock] answers for every integer quantity; a negative
    quantity is classified ['poco_stock'], never ['sin_stock'], because the
    first branch tests equality with 0 and the second takes every other
    quantity up to 5. *)
Theorem estado_stock_total (s : StockTalla.t) :
  (StockTalla.estado_stock s = "sin_stock"%string
   ∨ StockTalla.estado_stock s = "poco_stock"%string
   ∨ StockTalla.estado_stock s = "buen_stock"%string)
  ∧ (StockTalla.cantidad s < 0 →
     StockTalla.estado_stock s = "poco_stock"%string
     ∧ StockTalla.estado_stock s ≠ "sin_stock"%string)
  ∧ (StockTalla.estado_stock s = "sin_stock"%string ↔ StockTalla.cantidad s = 0)
  ∧ (StockTalla.cantidad s ≤ 5 → StockTalla.cantidad s ≠ 0 →
     StockTalla.estado_stock s = "poco_stock"%string).
Proof.
  destruct (estado_stock_cases s) as [[Hc ->]|[(Hc0 & Hc5 & ->)|[Hc ->]]];
    repeat split; intros; try lia; try done; auto.
Qed.

Lemma estado_stock_total_witness :
  StockTalla.estado_stock (StockTalla.Build (Some 1%positive) 1 "M" (-3)) = "poco_stock"%string.
Proof.
  pose (s := StockTalla.Build (Some 1%positive) 1 "M" (-3)).
  destruct (estado_stock_total s) as (_ & Hneg & _).
  apply Hneg. simpl. lia.
Defined.

(** ** Producto: stock *)

Lemma qs_filter_Permutation {A} (cond : A → bool) (xs ys : list A) :
  xs ≡ₚ ys → qs_filter cond xs ≡ₚ qs_filter cond ys.
Proof.
  unfold qs_filter.
  induction 1 as [|x xs ys _ IH|x y xs|xs ys zs _ IH1 _ IH2]; simpl.
  - done.
  - destruct (cond x); by rewrite IH.
  - destruct (cond x), (cond y); try done. apply perm_swap.
  - by etrans.
Qed.

Lemma qs_all_insert {A} (tabla : gmap positive A) (k : positive) (x : A) :
  tabla !! k = None → qs_all (<[k := x]> tabla) ≡ₚ x :: qs_all tabla.
Proof.
  intros Hk. unfold qs_all. by rewrite map_to_list_insert.
Qed.

(** The rows that the related manager of the product with key [k] yields. *)
Lemma elem_of_stock_tallas_de (tabla : gmap positive StockTalla.t) (k : positive)
    (st : StockTalla.t) :
  st ∈ Producto.stock_tallas_de tabla k ↔
  (∃ key, tabla !! key = Some st) ∧ StockTalla.producto st = k.
Proof.
  unfold Producto.stock_tallas_de.
  rewrite elem_of_qs_filter, elem_of_qs_all, Pos.eqb_eq. done.
Qed.

Lemma stock_tallas_de_empty (k : positive) : Producto.stock_tallas_de ∅ k = [].
Proof. unfold Producto.stock_tallas_de. by rewrite qs_all_empty. Qed.

Lemma stock_tallas_de_insert (tabla : gmap positive StockTalla.t) (k key : positive)
    (st : StockTalla.t) :
  tabla !! key = None →
  Producto.stock_tallas_de (<[key := st]> tabla) k ≡ₚ
    if Pos.eqb (StockTalla.producto st) k
    then st :: Producto.stock_tallas_de tabla k
    else Producto.stock_tallas_de tabla k.
Proof.
  intros Hk. unfold Producto.stock_tallas_de.
  rewrite (qs_filter_Permutation _ _ _ (qs_all_insert tabla key st Hk)).
  unfold qs_filter. simpl. by destruct (Pos.eqb (StockTalla.producto st) k).
Qed.

(** The two stock properties, branch by branch. *)
Lemma stock_accesorio_cases (tabla : gmap positive StockTalla.t) (p : Producto.t) :
  Categoria.tipo (Producto.categoria p) = "accesorio"%string →
  Producto.tiene_stock tabla p = Retorna (0 <? Producto.stock_accesorio p)
  ∧ Producto.stock_total tabla p = Retorna (Producto.stock_accesorio p).
Proof.
  intros Htipo. unfold Producto.tiene_stock, Producto.stock_total. by rewrite Htipo.
Qed.

Lemma stock_ropa_cases (tabla : gmap positive StockTalla.t) (p : Producto.t) (k : positive) :
  Categoria.tipo (Producto.categoria p) ≠ "accesorio"%string →
  Producto.pk p = Some k →
  Producto.tiene_stock tabla p
  = Retorna (qs_exists (qs_filter (λ st, 0 <? StockTalla.cantidad st)
                          (Producto.stock_tallas_de tabla k)))
  ∧ Producto.stock_total tabla p
    = Retorna (py_sum (StockTalla.cantidad <$> Producto.stock_tallas_de tabla k)).
Proof.
  intros Htipo Hpk. apply String.eqb_neq in Htipo.
  unfold Producto.tiene_stock, Producto.stock_total, Producto.stock_tallas.
  by rewrite Htipo, Hpk.
Qed.

Lemma stock_sin_pk_cases (tabla : gmap positive StockTalla.t) (p : Producto.t) :
  Categoria.tipo (Producto.categoria p) ≠ "accesorio"%string →
  Producto.pk p = None →
  Producto.tiene_stock tabla p = Lanza ValueError
  ∧ Producto.stock_total tabla p = Lanza ValueError.
Proof.
  intros Htipo Hpk. apply String.eqb_neq in Htipo.
  unfold Producto.tiene_stock, Producto.stock_total, Producto.stock_tallas.
  by rewrite Htipo, Hpk.
Qed.

(** C1: [tiene_stock] branches on the category type. For an accessory it
    is true exactly when [stock_accesorio > 0], whatever StockTalla rows
    exist. Otherwise, for a product that has been saved, it is true
    exactly when some StockTalla row of the product has [cantidad > 0];
    an instance that was never saved has no rows to ask for and the
    property raises [ValueError]. *)
Theorem tiene_stock_spec (tabla : gmap positive StockTalla.t) (p : Producto.t) :
  (Categoria.tipo (Producto.categoria p) = "accesorio"%string →
     (∃ b, Producto.tiene_stock tabla p = Retorna b
           ∧ (b = true ↔ 0 < Producto.stock_accesorio p))
     ∧ ∀ tabla', Producto.tiene_stock tabla' p = Producto.tiene_stock tabla p)
  ∧ (Categoria.tipo (Producto.categoria p) ≠ "accesorio"%string →
     (∀ k, Producto.pk p = Some k →
        ∃ b, Producto.tiene_stock tabla p = Retorna b
             ∧ (b = true ↔
                ∃ key st, tabla !! key = Some st
                          ∧ StockTalla.producto st = k
                          ∧ 0 < StockTalla.cantidad st))
     ∧ (Producto.pk p = None → Producto.tiene_stock tabla p = Lanza ValueError)).
Proof.
  split.
  - intros Htipo. split.
    + destruct (stock_accesorio_cases tabla p Htipo) as [-> _].
      eexists. split; [reflexivity|]. apply Z.ltb_lt.
    + intros tabla'.
      destruct (stock_accesorio_cases tabla p Htipo) as [-> _].
      by destruct (stock_accesorio_cases tabla' p Htipo) as [-> _].
  - intros Htipo. split.
    + intros k Hpk. destruct (stock_ropa_cases tabla p k Htipo Hpk) as [-> _].
      eexists. split; [reflexivity|].
      rewrite qs_exists_true. split.
      * intros [st Hst]. apply elem_of_qs_filter in Hst as [Hst Hpos].
        apply elem_of_stock_tallas_de in Hst as [[key Hkey] Hfk].
        exists key, st. split_and!; [done..|]. by apply Z.ltb_lt.
      * intros (key & st & Hkey & Hfk & Hpos). exists st.
        apply elem_of_qs_filter. split; [|by apply Z.ltb_lt].
        apply elem_of_stock_tallas_de. eauto.
    + intros Hpk. by destruct (stock_sin_pk_cases tabla p Htipo Hpk) as [-> _].
Qed.

(** The sum over the rows of product [k] grows by the [cantidad] of a new
    row of that product and by nothing for a row of another product. *)
Lemma suma_stock_insert (tabla : gmap positive StockTalla.t) (k key : positive)
    (st : StockTalla.t) :
  tabla !! key = None →
  py_sum (StockTalla.cantidad <$> Producto.stock_tallas_de (<[key := st]> tabla) k) =
    if Pos.eqb (StockTalla.producto st) k
    then StockTalla.cantidad st
         + py_sum (StockTalla.cantidad <$> Producto.stock_tallas_de tabla k)
    else py_sum (StockTalla.cantidad <$> Producto.stock_tallas_de tabla k).
Proof.
  intros Hkey.
  rewrite (py_sum_Permutation _ _
             (fmap_Permutation _ _ _ (stock_tallas_de_insert tabla k key st Hkey))).
  destruct (Pos.eqb (StockTalla.producto st) k); [|done].
  by rewrite fmap_cons, py_sum_cons.
Qed.

Lemma suma_cantidades_insert (tabla : gmap positive StockTalla.t) (pk : option positive)
    (k : positive) (st : StockTalla.t) :
  tabla !! k = None →
  suma_cantidades (<[k := st]> tabla) pk =
    if bool_decide (Some (StockTalla.producto st) = pk)
    then StockTalla.cantidad st + suma_cantidades tabla pk
    else suma_cantidades tabla pk.
Proof.
  intros Hk. unfold suma_cantidades. rewrite map_fold_insert_L; [done| |done].
  intros j1 j2 z1 z2 y _ _ _.
  repeat case_bool_decide; lia.
Qed.

Lemma suma_stock_suma_cantidades (tabla : gmap positive StockTalla.t) (k : positive) :
  py_sum (StockTalla.cantidad <$> Producto.stock_tallas_de tabla k)
  = suma_cantidades tabla (Some k).
Proof.
  induction tabla as [|key st tabla Hkey IH] using map_ind.
  - unfold suma_cantidades. by rewrite stock_tallas_de_empty, map_fold_empty.
  - rewrite suma_stock_insert, suma_cantidades_insert by done. rewrite IH.
    destruct (Pos.eqb_spec (StockTalla.producto st) k) as [->|Hne].
    + by rewrite bool_decide_eq_true_2.
    + rewrite bool_decide_eq_false_2; [done|]. congruence.
Qed.

(** C2: [stock_total] is [stock_accesorio] for an accessory. Otherwise,
    for a product that has been saved, it is the sum of [cantidad] over
    the StockTalla rows of the product, which is 0, and no error, when the
    product has no such row; an instance that was never saved makes the
    property raise [ValueError]. *)
Theorem stock_total_spec (tabla : gmap positive StockTalla.t) (p : Producto.t) :
  (Categoria.tipo (Producto.categoria p) = "accesorio"%string →
     Producto.stock_total tabla p = Retorna (Producto.stock_accesorio p))
  ∧ (Categoria.tipo (Producto.categoria p) ≠ "accesorio"%string →
     (∀ k, Producto.pk p = Some k →
        Producto.stock_total tabla p = Retorna (suma_cantidades tabla (Some k))
        ∧ ((∀ key st, tabla !! key = Some st → StockTalla.producto st ≠ k) →
           Producto.stock_total tabla p = Retorna 0))
     ∧ (Producto.pk p = None → Producto.stock_total tabla p = Lanza ValueError)).
Proof.
  split.
  - intros Htipo. by destruct (stock_accesorio_cases tabla p Htipo) as [_ ->].
  - intros Htipo. split.
    + intros k Hpk. destruct (stock_ropa_cases tabla p k Htipo Hpk) as [_ ->].
      split.
      * by rewrite suma_stock_suma_cantidades.
      * intros Hnone.
        destruct (Producto.stock_tallas_de tabla k) as [|st sts] eqn:Hrows; [done|].
        assert (Hin : st ∈ Producto.stock_tallas_de tabla k)
          by (rewrite Hrows; apply list_elem_of_here).
        apply elem_of_stock_tallas_de in Hin as [[key Hkey] Hfk].
        by destruct (Hnone key st Hkey).
    + intros Hpk. by destruct (stock_sin_pk_cases tabla p Htipo Hpk) as [_ ->].
Qed.

Lemma tiene_stock_spec_witness :
  Producto.tiene_stock Muestra.stock Muestra.polera_negra = Retorna true
  ∧ Producto.tiene_stock Muestra.stock Muestra.cinturon = Retorna false
  ∧ Producto.tiene_stock Muestra.stock Muestra.camiseta_nueva = Lanza ValueError.
Proof.
  split_and!.
  - destruct (tiene_stock_spec Muestra.stock Muestra.polera_negra) as [_ Hropa].
    destruct Hropa as [Hguardado _]; [done|].
    destruct (Hguardado 1%positive eq_refl) as (b & -> & Hb).
    f_equal. apply Hb.
    exists 2%positive, (StockTalla.Build (Some 2%positive) 1 "M" 3).
    split_and!; [reflexivity|reflexivity|simpl; lia].
  - destruct (tiene_stock_spec Muestra.stock Muestra.cinturon) as [Hacc _].
    destruct (Hacc eq_refl) as [(b & -> & Hb) _].
    f_equal. destruct b; [|done].
    assert (0 < Producto.stock_accesorio Muestra.cinturon) as Hpos by by apply Hb.
    simpl in Hpos. lia.
  - destruct (tiene_stock_spec Muestra.stock Muestra.camiseta_nueva) as [_ Hropa].
    destruct Hropa as [_ Hnueva]; [done|].
    apply Hnueva. reflexivity.
Defined.

Lemma stock_total_spec_witness :
  Producto.stock_total Muestra.stock Muestra.polera_negra = Retorna 3
  ∧ Producto.stock_total ∅ Muestra.polera_negra = Retorna 0
  ∧ Producto.stock_total Muestra.stock Muestra.camiseta_nueva = Lanza ValueError.
Proof.
  split_and!.
  - destruct (stock_total_spec Muestra.stock Muestra.polera_negra) as [_ Hropa].
    destruct Hropa as [Hguardado _]; [done|].
    destruct (Hguardado 1%positive eq_refl) as [-> _].
    vm_compute. reflexivity.
  - destruct (stock_total_spec ∅ Muestra.polera_negra) as [_ Hropa].
    destruct Hropa as [Hguardado _]; [done|].
    destruct (Hguardado 1%positive eq_refl) as [_ Hcero].
    apply Hcero. intros key st Hkey. by rewrite lookup_empty in Hkey.
  - destruct (stock_total_spec Muestra.stock Muestra.camiseta_nueva) as [_ Hropa].
    destruct Hropa as [_ Hnueva]; [done|].
    apply Hnueva. reflexivity.
Defined.

(** The sample rows S:0, M:3, L:0 give a total of 3 and available stock;
    with every size at 0 the product is not available. *)
Example stock_total_muestra :
  Producto.stock_total Muestra.stock Muestra.polera_negra = Retorna 3
  ∧ Producto.tiene_stock Muestra.stock Muestra.polera_negra = Retorna true
  ∧ Producto.stock_total Muestra.stock Muestra.cinturon = Retorna 0.
Proof. split_and!; vm_compute; reflexivity. Qed.

Example tiene_stock_todo_cero :
  Producto.tiene_stock
    (<[2%positive := StockTalla.Build (Some 2%positive) 1 "M" 0]> Muestra.stock)
    Muestra.polera_negra = Retorna false.
Proof. vm_compute. reflexivity. Qed.

(** ** Producto.save: the slug *)

Section SaveSlug.

Variable slugify : string → string.

(** The inherited [Model.save] never touches the slug of the instance. *)
Lemma Model_save_slug (ahora : Z) (tabla : gmap positive Producto.t) (p : Producto.t) :
  Producto.slug (Producto.Model_save ahora tabla p).1 = Producto.slug p.
Proof.
  unfold Producto.Model_save.
  destruct (Producto.slug_ocupado _ _ _); reflexivity.
Qed.

Lemma save_nombre (ahora : Z) (tabla : gmap positive Producto.t) (p : Producto.t) :
  Producto.nombre (Producto.save slugify ahora tabla p).1 = Producto.nombre p.
Proof.
  unfold Producto.save, Producto.Model_save.
  destruct (Producto.slug_ocupado _ _ _), (str_truthy (Producto.slug p)); reflexivity.
Qed.

Lemma save_slug_vacio (ahora : Z) (tabla : gmap positive Producto.t) (p : Producto.t) :
  Producto.slug p = EmptyString →
  Producto.slug (Producto.save slugify ahora tabla p).1 = slugify (Producto.nombre p).
Proof.
  intros Hslug. unfold Producto.save. rewrite Model_save_slug, Hslug. reflexivity.
Qed.

Lemma save_slug_puesto (ahora : Z) (tabla : gmap positive Producto.t) (p : Producto.t) :
  Producto.slug p ≠ EmptyString →
  Producto.slug (Producto.save slugify ahora tabla p).1 = Producto.slug p.
Proof.
  intros Hslug. unfold Producto.save. rewrite Model_save_slug.
  apply str_truthy_true in Hslug. by rewrite Hslug.
Qed.

(** When the write is accepted, the stored row is the instance that [save]
    returns, slug included. *)
Lemma save_guardado (ahora : Z) (tabla tabla' : gmap positive Producto.t) (p p' : Producto.t) :
  Producto.save slugify ahora tabla p = (p', Guardado tabla') →
  ∃ k, Producto.pk p' = Some k ∧ tabla' !! k = Some p'.
Proof.
  unfold Producto.save, Producto.Model_save.
  destruct (Producto.slug_ocupado _ _ _); [done|].
  intros [= <- <-]. eexists. split; [reflexivity|]. apply lookup_insert_eq.
Qed.

End SaveSlug.

(** C3: saving a product whose slug is empty sets the slug to
    [slugify(nombre)]; saving a product whose slug is set leaves it as it
    is. Hence saving again gives the same slug, and once a slug is set,
    changing [nombre] and saving again does not change it. *)
Theorem save_slug_spec (slugify : string → string) (ahora ahora' : Z)
    (tabla tabla' : gmap positive Producto.t) (p : Producto.t) :
  let p1 := (Producto.save slugify ahora tabla p).1 in
  (Producto.slug p = EmptyString → Producto.slug p1 = slugify (Producto.nombre p))
  ∧ (Producto.slug p ≠ EmptyString → Producto.slug p1 = Producto.slug p)
  ∧ Producto.slug (Producto.save slugify ahora' tabla' p1).1 = Producto.slug p1
  ∧ (Producto.slug p1 ≠ EmptyString →
     ∀ nombre',
       Producto.slug
         (Producto.save slugify ahora' tabla' (Producto.set_nombre nombre' p1)).1
       = Producto.slug p1).
Proof.
  intros p1. split_and!.
  - apply save_slug_vacio.
  - apply save_slug_puesto.
  - destruct (decide (Producto.slug p1 = EmptyString)) as [Hp1|Hp1].
    + rewrite (save_slug_vacio _ _ _ _ Hp1), Hp1.
      subst p1. rewrite save_nombre.
      destruct (decide (Producto.slug p = EmptyString)) as [Hp|Hp].
      * by rewrite <- (save_slug_vacio slugify ahora tabla p Hp).
      * rewrite (save_slug_puesto slugify ahora tabla p Hp) in Hp1. done.
    + by apply save_slug_puesto.
  - intros Hp1 nombre'. by rewrite save_slug_puesto.
Qed.

Lemma save_slug_spec_witness :
  let p1 := (Producto.save slugify_ascii 10 ∅ Muestra.camiseta_nueva).1 in
  Producto.slug p1 = "camiseta-roja"%string
  ∧ Producto.slug
      (Producto.save slugify_ascii 20 ∅ (Producto.set_nombre "Camiseta Azul" p1)).1
    = "camiseta-roja"%string.
Proof.
  intros p1.
  destruct (save_slug_spec slugify_ascii 10 20 ∅ ∅ Muestra.camiseta_nueva)
    as (Hvacio & _ & _ & Hnombre).
  assert (Hp1 : Producto.slug p1 = "camiseta-roja"%string).
  { subst p1. rewrite Hvacio; [|reflexivity]. vm_compute. reflexivity. }
  split; [exact Hp1|].
  transitivity (Producto.slug p1); [|exact Hp1].
  apply Hnombre. fold p1. rewrite Hp1. done.
Defined.

(** A name from which [slugify] keeps nothing leaves the slug empty, so the
    next save derives it again from the name of that moment. *)
Example save_slug_sigue_vacio :
  let p := Producto.set_nombre "!!!" Muestra.camiseta_nueva in
  let p1 := (Producto.save slugify_ascii 10 ∅ p).1 in
  Producto.slug p1 = EmptyString
  ∧ Producto.slug
      (Producto.save slugify_ascii 20 ∅ (Producto.set_nombre "Camiseta Azul" p1)).1
    = "camiseta-azul"%string.
Proof. split; vm_compute; reflexivity. Qed.

(** ** ImagenProducto.save: the principal image *)

Section Principal.

Implicit Types (tabla : gmap positive ImagenProducto.t) (self fila : ImagenProducto.t).
Implicit Types (k : positive) (p : positive).

Lemma lookup_clear_principal p tabla k :
  ImagenProducto.clear_principal p tabla !! k =
  (λ fila, if Pos.eqb (ImagenProducto.producto fila) p && ImagenProducto.es_principal fila
           then ImagenProducto.set_es_principal false fila
           else fila) <$> tabla !! k.
Proof. unfold ImagenProducto.clear_principal. apply lookup_fmap. Qed.

Lemma dom_clear_principal p tabla :
  dom (ImagenProducto.clear_principal p tabla) = dom tabla.
Proof. unfold ImagenProducto.clear_principal. apply dom_fmap_L. Qed.

(** After the update no row of [p] is flagged, and rows of other products
    and unflagged rows are as before. *)
Lemma clear_principal_sin_principal p tabla k fila :
  ImagenProducto.clear_principal p tabla !! k = Some fila →
  ImagenProducto.producto fila = p →
  ImagenProducto.es_principal fila = false.
Proof.
  rewrite lookup_clear_principal. destruct (tabla !! k) as [f|]; [|done].
  simpl. intros [= <-].
  destruct (Pos.eqb_spec (ImagenProducto.producto f) p) as [Hp|Hp]; simpl.
  - destruct (ImagenProducto.es_principal f) eqn:He; done.
  - destruct (Pos.eqb_spec (ImagenProducto.producto f) p); done.
Qed.

Lemma clear_principal_producto p tabla k fila :
  ImagenProducto.clear_principal p tabla !! k = Some fila →
  ∃ fila0, tabla !! k = Some fila0
           ∧ ImagenProducto.producto fila = ImagenProducto.producto fila0
           ∧ (ImagenProducto.producto fila0 ≠ p → fila = fila0)
           ∧ (ImagenProducto.producto fila0 = p →
              fila = ImagenProducto.set_es_principal false fila0).
Proof.
  rewrite lookup_clear_principal. destruct (tabla !! k) as [f|]; [|done].
  simpl. intros [= <-]. exists f. split; [done|].
  destruct (Pos.eqb_spec (ImagenProducto.producto f) p) as [Hp|Hp]; simpl.
  - destruct (ImagenProducto.es_principal f) eqn:He; simpl.
    + split_and!; done.
    + split_and!; [done|done|]. intros _. destruct f; simpl in *. by subst.
  - split_and!; done.
Qed.

(** [save] unfolded: the table after the optional update, with the instance
    written under its key. *)
Lemma save_unfold tabla self :
  ImagenProducto.save tabla self =
  let tabla1 := if ImagenProducto.es_principal self
                then ImagenProducto.clear_principal (ImagenProducto.producto self) tabla
                else tabla in
  let self' := ImagenProducto.set_pk (Some (ImagenProducto.save_key tabla self)) self in
  (self', <[ImagenProducto.save_key tabla self := self']> tabla1).
Proof.
  unfold ImagenProducto.save, ImagenProducto.Model_save, ImagenProducto.save_key.
  destruct (ImagenProducto.es_principal self), (ImagenProducto.pk self);
    simpl; rewrite ?dom_clear_principal; reflexivity.
Qed.

Lemma save_pk tabla self :
  ImagenProducto.pk (ImagenProducto.save tabla self).1 = Some (ImagenProducto.save_key tabla self).
Proof. by rewrite save_unfold. Qed.

Lemma save_key_fresh tabla self :
  ImagenProducto.pk self = None → tabla !! ImagenProducto.save_key tabla self = None.
Proof.
  intros Hpk. unfold ImagenProducto.save_key. rewrite Hpk.
  apply not_elem_of_dom, is_fresh.
Qed.

(** Saving an image flagged as principal leaves it as the only flagged row
    of its product. *)
Lemma save_principal_singleton tabla self :
  ImagenProducto.es_principal self = true →
  ImagenProducto.principales (ImagenProducto.save tabla self).2
    (ImagenProducto.producto self)
  = {[ ImagenProducto.save_key tabla self := (ImagenProducto.save tabla self).1 ]}.
Proof.
  intros Hprin. rewrite save_unfold, Hprin. simpl.
  unfold ImagenProducto.principales. apply map_eq. intros k.
  destruct (decide (k = ImagenProducto.save_key tabla self)) as [->|Hk].
  - rewrite lookup_singleton_eq. apply map_lookup_filter_Some.
    rewrite lookup_insert_eq. done.
  - rewrite lookup_singleton_ne by done. apply map_lookup_filter_None.
    right. intros fila. rewrite lookup_insert_ne by done.
    intros Hfila [Hp He]. simpl in *.
    apply clear_principal_sin_principal in Hfila; [congruence|done].
Qed.

(** Otherwise, for the saved image's product when the image is not flagged
    and for every other product, [save] adds no flagged row. *)
Lemma save_principales_subseteq tabla self p :
  ImagenProducto.es_principal self = false ∨ p ≠ ImagenProducto.producto self →
  ImagenProducto.principales (ImagenProducto.save tabla self).2 p
  ⊆ ImagenProducto.principales tabla p.
Proof.
  intros Hcaso. rewrite save_unfold. simpl.
  unfold ImagenProducto.principales. apply map_subseteq_spec. intros k fila.
  rewrite !map_lookup_filter_Some. simpl. intros [Hk [Hp He]].
  destruct (decide (k = ImagenProducto.save_key tabla self)) as [->|Hne].
  - rewrite lookup_insert_eq in Hk. injection Hk as <-. simpl in *.
    destruct Hcaso; congruence.
  - rewrite lookup_insert_ne in Hk by done.
    destruct (ImagenProducto.es_principal self) eqn:Hself; [|done].
    destruct Hcaso as [?|Hotro]; [done|].
    apply clear_principal_producto in Hk as (fila0 & Hk0 & Hprod & Hsame & _).
    rewrite Hsame by congruence. rewrite Hsame in Hp, He by congruence. done.
Qed.

(** The invariant is kept for every product. *)
Lemma save_a_lo_mas_uno tabla self p :
  (size (ImagenProducto.principales tabla p) ≤ 1)%nat →
  (size (ImagenProducto.principales (ImagenProducto.save tabla self).2 p) ≤ 1)%nat.
Proof.
  intros Hinv.
  destruct (ImagenProducto.es_principal self) eqn:Hself.
  - destruct (decide (p = ImagenProducto.producto self)) as [->|Hp].
    + rewrite save_principal_singleton by done. by rewrite map_size_singleton.
    + etrans; [|exact Hinv]. apply map_subseteq_size, save_principales_subseteq. by right.
  - etrans; [|exact Hinv]. apply map_subseteq_size, save_principales_subseteq. by left.
Qed.

(** Every table built by saves alone satisfies it. *)
Lemma alcanzable_a_lo_mas_uno tabla p :
  ImagenProducto.alcanzable tabla →
  (size (ImagenProducto.principales tabla p) ≤ 1)%nat.
Proof.
  induction 1 as [|tabla self _ IH].
  - unfold ImagenProducto.principales. rewrite map_filter_empty, map_size_empty. lia.
  - by apply save_a_lo_mas_uno.
Qed.

End Principal.

(** C4: after [save], at most one image of the saved image's product is
    flagged principal. When the saved image is flagged, it is the only
    flagged row of its product; in any case a product with at most one
    flagged row keeps at most one, and so does every product of a table
    built by saves. In particular, with A flagged in the table and B of the
    same product saved with the flag set, B is the one principal image and
    A's row has the flag cleared. *)
Theorem save_principal_spec (tabla : gmap positive ImagenProducto.t)
    (self : ImagenProducto.t) :
  let tabla' := (ImagenProducto.save tabla self).2 in
  let self' := (ImagenProducto.save tabla self).1 in
  (ImagenProducto.es_principal self = true →
     ImagenProducto.principales tabla' (ImagenProducto.producto self)
     = {[ ImagenProducto.save_key tabla self := self' ]})
  ∧ (∀ p, (size (ImagenProducto.principales tabla p) ≤ 1)%nat →
          (size (ImagenProducto.principales tabla' p) ≤ 1)%nat)
  ∧ (ImagenProducto.alcanzable tabla →
     ∀ p, (size (ImagenProducto.principales tabla' p) ≤ 1)%nat)
  ∧ (∀ kA kB A,
       ImagenProducto.pk self = Some kB →
       kA ≠ kB →
       tabla !! kA = Some A →
       ImagenProducto.producto A = ImagenProducto.producto self →
       ImagenProducto.es_principal A = true →
       ImagenProducto.es_principal self = true →
       (size (ImagenProducto.principales tabla' (ImagenProducto.producto self)) = 1)%nat
       ∧ tabla' !! kB = Some self
       ∧ tabla' !! kA = Some (ImagenProducto.set_es_principal false A)).
Proof.
  intros tabla' self'. split_and!.
  - apply save_principal_singleton.
  - intros p. apply save_a_lo_mas_uno.
  - intros Halc p. apply alcanzable_a_lo_mas_uno. by constructor.
  - intros kA kB A Hpk Hne HA Hprod HeA Heself. subst tabla'. split_and!.
    + rewrite save_principal_singleton by done. apply map_size_singleton.
    + rewrite save_unfold. simpl. unfold ImagenProducto.save_key. rewrite Hpk.
      rewrite lookup_insert_eq. f_equal. destruct self; simpl in *. by subst.
    + rewrite save_unfold, Heself. simpl. unfold ImagenProducto.save_key. rewrite Hpk.
      rewrite lookup_insert_ne by done.
      rewrite lookup_clear_principal, HA. simpl.
      by rewrite Hprod, Pos.eqb_refl, HeA.
Qed.

Lemma save_principal_spec_witness :
  let B := ImagenProducto.set_es_principal true Muestra.imagen_B in
  let tabla' := (ImagenProducto.save Muestra.imagenes B).2 in
  (size (ImagenProducto.principales tabla' 1%positive) = 1)%nat
  ∧ tabla' !! 2%positive = Some B
  ∧ tabla' !! 1%positive = Some (ImagenProducto.set_es_principal false Muestra.imagen_A).
Proof.
  intros B tabla'.
  destruct (save_principal_spec Muestra.imagenes B) as (_ & _ & _ & Hescena).
  apply (Hescena 1%positive 2%positive Muestra.imagen_A); try reflexivity.
  discriminate.
Defined.

(** C9: saving an image that is not flagged principal leaves every other
    row of the table as it was, so no flag of another image changes (a new
    image replaces no row at all); a product without a principal image
    still has none afterwards. *)
Theorem save_no_principal_frame (tabla : gmap positive ImagenProducto.t)
    (self : ImagenProducto.t) :
  ImagenProducto.es_principal self = false →
  let tabla' := (ImagenProducto.save tabla self).2 in
  let self' := (ImagenProducto.save tabla self).1 in
  (∀ k, ImagenProducto.pk self' ≠ Some k → tabla' !! k = tabla !! k)
  ∧ (∀ k fila, ImagenProducto.pk self' ≠ Some k → tabla !! k = Some fila →
       ∃ fila', tabla' !! k = Some fila'
                ∧ ImagenProducto.es_principal fila' = ImagenProducto.es_principal fila)
  ∧ (ImagenProducto.pk self = None →
     ∀ k fila, tabla !! k = Some fila → tabla' !! k = Some fila)
  ∧ (ImagenProducto.principales tabla (ImagenProducto.producto self) = ∅ →
     ImagenProducto.principales tabla' (ImagenProducto.producto self) = ∅).
Proof.
  intros Hself tabla' self'.
  assert (Hframe : ∀ k, ImagenProducto.pk self' ≠ Some k → tabla' !! k = tabla !! k).
  { intros k Hk. subst tabla' self'. rewrite save_pk in Hk.
    rewrite save_unfold, Hself. simpl. apply lookup_insert_ne. congruence. }
  split_and!.
  - exact Hframe.
  - intros k fila Hk Hfila. exists fila. by rewrite Hframe.
  - intros Hpk k fila Hfila. rewrite Hframe; [done|].
    subst self'. rewrite save_pk. intros [= <-].
    rewrite save_key_fresh in Hfila; done.
  - intros Hvacio. apply map_size_empty_iff.
    assert (Hle : (size (ImagenProducto.principales tabla' (ImagenProducto.producto self))
                   ≤ size (ImagenProducto.principales tabla (ImagenProducto.producto self)))%nat).
    { apply map_subseteq_size, save_principales_subseteq. by left. }
    rewrite Hvacio, map_size_empty in Hle. lia.
Qed.

Lemma save_no_principal_frame_witness :
  let C := ImagenProducto.Build None 1 "productos/c.png" 2 false in
  let tabla := <[2%positive := Muestra.imagen_B]> ∅ in
  let tabla' := (ImagenProducto.save tabla C).2 in
  tabla' !! 2%positive = Some Muestra.imagen_B
  ∧ ImagenProducto.principales tabla' 1%positive = ∅.
Proof.
  intros C tabla tabla'.
  destruct (save_no_principal_frame tabla C eq_refl) as (Hframe & _ & _ & Hcero).
  split.
  - rewrite Hframe; [reflexivity|]. vm_compute. discriminate.
  - apply Hcero. apply map_size_empty_iff. vm_compute. reflexivity.
Defined.

(** ** Number formatting *)

Lemma string_of_list_ascii_app (xs ys : list ascii) :
  string_of_list_ascii (xs ++ ys) = string_of_list_ascii xs +:+ string_of_list_ascii ys.
Proof. induction xs as [|x xs IH]; simpl; [done|]. by rewrite IH. Qed.

Lemma string_app_assoc (s1 s2 s3 : string) : (s1 +:+ s2) +:+ s3 = s1 +:+ (s2 +:+ s3).
Proof.
  induction s1 as [|c s1 IH]; [reflexivity|].
  change (String c ((s1 +:+ s2) +:+ s3) = String c (s1 +:+ s2 +:+ s3)).
  by rewrite IH.
Qed.

(** [f] steps are enough for an amount below [10 ^ (f + 1)]; the result
    does not depend on how much fuel is left over. *)
Lemma cifras_aux_fuel (f1 f2 : nat) (n : Z) :
  0 ≤ n → n < 10 ^ Z.of_nat (S f1) → n < 10 ^ Z.of_nat (S f2) →
  cifras_aux f1 n = cifras_aux f2 n.
Proof.
  revert f2 n. induction f1 as [|f1 IH]; intros f2 n Hn H1 H2.
  - change (10 ^ Z.of_nat 1) with 10 in H1.
    destruct f2; simpl; [done|].
    destruct (Z.ltb_spec n 10); [done|lia].
  - destruct f2 as [|f2].
    + change (10 ^ Z.of_nat 1) with 10 in H2. simpl.
      destruct (Z.ltb_spec n 10); [done|lia].
    + simpl. destruct (Z.ltb_spec n 10) as [|Hge]; [done|].
      rewrite Nat2Z.inj_succ, Z.pow_succ_r in H1, H2 by lia.
      f_equal. apply IH.
      * apply Z.div_pos; lia.
      * apply Z.div_lt_upper_bound; lia.
      * apply Z.div_lt_upper_bound; lia.
Qed.

(** The fuel [cifras] starts with is enough: [n < 2 ^ (log2 n + 1)]. *)
Lemma cifras_fuel_suficiente (n : Z) :
  0 ≤ n → n < 10 ^ Z.of_nat (S (Z.to_nat (Z.log2 n))).
Proof.
  intros Hn. rewrite Nat2Z.inj_succ, Z2Nat.id by apply Z.log2_nonneg.
  destruct (decide (n = 0)) as [->|Hn0].
  - simpl. lia.
  - assert (Hspec : n < 2 ^ Z.succ (Z.log2 n)) by (apply Z.log2_spec; lia).
    eapply Z.lt_le_trans; [exact Hspec|].
    apply Z.pow_le_mono_l. lia.
Qed.

Lemma cifras_menor (n : Z) : 0 ≤ n < 10 → cifras n = [n].
Proof.
  intros Hn. unfold cifras. destruct (Z.to_nat (Z.log2 n)); simpl; [done|].
  destruct (Z.ltb_spec n 10); [done|lia].
Qed.

Lemma cifras_paso (n : Z) : 10 ≤ n → cifras n = (n mod 10) :: cifras (n / 10).
Proof.
  intros Hn. unfold cifras.
  assert (Hdiv : 0 ≤ n / 10) by (apply Z.div_pos; lia).
  pose proof (cifras_fuel_suficiente n ltac:(lia)) as Hfuel.
  pose proof (cifras_fuel_suficiente (n / 10) Hdiv) as Hfuel10.
  rewrite (cifras_aux_fuel _ (S (Z.to_nat (Z.log2 (n / 10)))) n); [|lia|done|].
  - simpl. destruct (Z.ltb_spec n 10); [lia|done].
  - rewrite Nat2Z.inj_succ, Z.pow_succ_r by lia.
    Z.to_euclidean_division_equations; lia.
Qed.

Lemma cifras_no_vacia (n : Z) : ∃ d ds, cifras n = d :: ds.
Proof.
  unfold cifras. destruct (Z.to_nat (Z.log2 n)); simpl; [eauto|].
  destruct (n <? 10); eauto.
Qed.

(** The digits of an amount below 1000. *)
Lemma format_miles_menor (n : Z) : 0 ≤ n < 1000 → format_miles n = sin_ceros n.
Proof.
  intros Hn. unfold format_miles, sin_ceros.
  destruct (Z.ltb_spec n 10) as [H10|H10].
  { by rewrite cifras_menor by lia. }
  rewrite (cifras_paso n) by lia.
  assert (0 ≤ n / 10 < 100) by (split; [apply Z.div_pos; lia|apply Z.div_lt_upper_bound; lia]).
  destruct (Z.ltb_spec n 100) as [H100|H100].
  { rewrite (cifras_menor (n / 10)); [done|].
    split; [lia|]. apply Z.div_lt_upper_bound; lia. }
  rewrite (cifras_paso (n / 10)) by (apply Z.div_le_lower_bound; lia).
  rewrite (cifras_menor (n / 10 / 10)).
  - unfold tres_cifras. simpl. by rewrite Z.div_div by lia.
  - split; [apply Z.div_pos; lia|apply Z.div_lt_upper_bound; lia].
Qed.

(** From 1000 on, the last three digits are split off behind a comma. *)
Lemma format_miles_miles (n : Z) :
  1000 ≤ n →
  format_miles n = format_miles (n / 1000) +:+ "," +:+ tres_cifras (n mod 1000).
Proof.
  intros Hn. unfold format_miles.
  assert (10 ≤ n / 10) by (apply Z.div_le_lower_bound; lia).
  assert (10 ≤ n / 10 / 10) by (rewrite Z.div_div by lia; apply Z.div_le_lower_bound; lia).
  rewrite (cifras_paso n), (cifras_paso (n / 10)), (cifras_paso (n / 10 / 10)) by lia.
  rewrite !Z.div_div by lia. change (10 * 10 * 10) with 1000. change (10 * 10) with 100.
  destruct (cifras_no_vacia (n / 1000)) as (d & ds & Hds). rewrite Hds.
  rewrite !fmap_cons. cbn [insert_thousands_sep]. rewrite <- !fmap_cons, <- Hds.
  rewrite !reverse_cons, <- !List.app_assoc. rewrite string_of_list_ascii_app.
  f_equal. simpl. unfold tres_cifras.
  replace (n mod 1000 / 100) with (n / 100 mod 10)
    by (Z.to_euclidean_division_equations; lia).
  replace (n mod 1000 / 10 mod 10) with (n / 10 mod 10)
    by (Z.to_euclidean_division_equations; lia).
  replace (n mod 1000 mod 10) with (n mod 10)
    by (Z.to_euclidean_division_equations; lia).
  done.
Qed.

(** [format_miles] renders an amount in groups of thousands. *)
Lemma format_miles_agrupado (n : Z) : 0 ≤ n → agrupado n (format_miles n).
Proof.
  induction (Z.lt_wf 0 n) as [n _ IH]. intros Hn.
  destruct (Z.lt_ge_cases n 1000) as [Hlt|Hge].
  - rewrite format_miles_menor by lia. by constructor.
  - rewrite format_miles_miles by done. constructor; [done|].
    assert (0 ≤ n / 1000 < n) by (Z.to_euclidean_division_equations; lia).
    apply IH; lia.
Qed.

(** The relation leaves no choice: an amount has one rendering. *)
Lemma agrupado_unico (n : Z) (s1 s2 : string) :
  agrupado n s1 → agrupado n s2 → s1 = s2.
Proof.
  intros H1. revert s2. induction H1 as [n Hn|n s Hn _ IH]; intros s2 H2.
  - inversion H2; subst; [done|lia].
  - inversion H2 as [|? s' ? Hs']; subst; [lia|]. by rewrite (IH s' Hs').
Qed.

Lemma todos_app (cond : ascii → bool) (s1 s2 : string) :
  todos cond (s1 +:+ s2) = todos cond s1 && todos cond s2.
Proof.
  induction s1 as [|c s1 IH]; [reflexivity|].
  change (cond c && todos cond (s1 +:+ s2) = cond c && todos cond s1 && todos cond s2).
  rewrite IH. by rewrite andb_assoc.
Qed.

Lemma digito_es_cifra (d : Z) : 0 ≤ d ≤ 9 → cifra_o_coma (digito d) = true.
Proof.
  intros Hd.
  assert (d = 0 ∨ d = 1 ∨ d = 2 ∨ d = 3 ∨ d = 4 ∨ d = 5 ∨ d = 6 ∨ d = 7 ∨ d = 8 ∨ d = 9)
    as Hcasos by lia.
  repeat destruct Hcasos as [->|Hcasos]; try subst d; reflexivity.
Qed.

Lemma tres_cifras_todos (m : Z) : 0 ≤ m < 1000 → todos cifra_o_coma (tres_cifras m) = true.
Proof.
  intros Hm. unfold tres_cifras. cbn [todos].
  assert (H2 : 0 ≤ m / 100 ≤ 9) by (Z.to_euclidean_division_equations; lia).
  assert (H1 : 0 ≤ m / 10 mod 10 ≤ 9) by (Z.to_euclidean_division_equations; lia).
  assert (H0 : 0 ≤ m mod 10 ≤ 9) by (Z.to_euclidean_division_equations; lia).
  by rewrite (digito_es_cifra _ H2), (digito_es_cifra _ H1), (digito_es_cifra _ H0).
Qed.

Lemma sin_ceros_todos (m : Z) : 0 ≤ m < 1000 → todos cifra_o_coma (sin_ceros m) = true.
Proof.
  intros Hm. unfold sin_ceros.
  destruct (Z.ltb_spec m 10); [|destruct (Z.ltb_spec m 100)].
  - cbn [todos]. by rewrite digito_es_cifra by lia.
  - cbn [todos].
    assert (Hd1 : 0 ≤ m / 10 ≤ 9) by (Z.to_euclidean_division_equations; lia).
    assert (Hd0 : 0 ≤ m mod 10 ≤ 9) by (Z.to_euclidean_division_equations; lia).
    by rewrite (digito_es_cifra _ Hd1), (digito_es_cifra _ Hd0).
  - by apply tres_cifras_todos.
Qed.

(** A grouped rendering holds digits and commas only: no decimal point and
    no decimals. *)
Lemma agrupado_todos (n : Z) (s : string) :
  agrupado n s → todos cifra_o_coma s = true.
Proof.
  induction 1 as [n Hn|n s Hn _ IH].
  - by apply sin_ceros_todos.
  - rewrite !todos_app, IH, tres_cifras_todos; [done|].
    apply Z.mod_pos_bound. lia.
Qed.

(** Every price that fits the field is formatted without rounding. *)
Lemma precio_valido_sin_redondeo (x : numero) :
  precio_valido x → no_negativo x = true ∧ sin_redondeo x = true.
Proof.
  intros [Hsigno Hcota]. split; [done|].
  destruct x as [n|negativo c]; [|done].
  simpl in *. apply Z.leb_le in Hsigno. apply Z.ltb_lt.
  assert (10 ^ 10 < 2 ^ 53) by reflexivity. lia.
Qed.

(** An amount with a clear sign that is not rounded is formatted as the
    grouped digits of its value. *)
Lemma format_coma_0f_exacto (x : numero) :
  no_negativo x = true → sin_redondeo x = true →
  0 ≤ valor x ∧ format_coma_0f x = Retorna (format_miles (valor x)).
Proof.
  intros Hsigno Hexacto. destruct x as [n|negativo c]; simpl in *.
  - apply Z.leb_le in Hsigno. split; [done|].
    unfold float_de_int. rewrite Hexacto. simpl.
    destruct (Z.ltb_spec n 0) as [|_]; [lia|].
    by rewrite Z.abs_eq.
  - apply negb_true_iff in Hsigno as ->. split; [lia|done].
Qed.

(** C6: for a price that is not negative and fits the field (at most ten
    digits; more generally any [Decimal], or an [int] below [2 ^ 53], which
    the conversion to [float] leaves as it is), [precio_formateado] is
    ['$'] followed by the amount in comma-separated groups of thousands,
    made of digits and commas only; 15000 is rendered "$15,000". *)
Theorem precio_formateado_spec (p : Producto.t) :
  no_negativo (Producto.precio p) = true →
  sin_redondeo (Producto.precio p) = true →
  (∃ cuerpo, Producto.precio_formateado p = Retorna ("$" +:+ cuerpo)
             ∧ agrupado (valor (Producto.precio p)) cuerpo
             ∧ todos cifra_o_coma cuerpo = true)
  ∧ (valor (Producto.precio p) = 15000 →
     Producto.precio_formateado p = Retorna "$15,000"%string).
Proof.
  intros Hsigno Hexacto.
  destruct (format_coma_0f_exacto _ Hsigno Hexacto) as [Hpos Hfmt].
  unfold Producto.precio_formateado. rewrite Hfmt. split.
  - exists (format_miles (valor (Producto.precio p))).
    pose proof (format_miles_agrupado _ Hpos) as Hagr.
    split_and!; [done|done|]. by eapply agrupado_todos.
  - intros ->. vm_compute. reflexivity.
Qed.

Lemma precio_formateado_spec_witness :
  Producto.precio_formateado Muestra.cinturon = Retorna "$15,000"%string.
Proof.
  destruct (precio_valido_sin_redondeo (Producto.precio Muestra.cinturon))
    as [Hsigno Hexacto].
  { split; [reflexivity|]. vm_compute. reflexivity. }
  destruct (precio_formateado_spec Muestra.cinturon Hsigno Hexacto) as [_ H15].
  apply H15. reflexivity.
Defined.

(** Where the representation shows: an [int] of more than 53 bits is
    rounded by the conversion to [float] while the [Decimal] of the same
    value is not, an [int] beyond the range of a double cannot be
    formatted, and a [Decimal] keeps the sign of a negative zero. *)
Example format_coma_0f_representacion :
  format_coma_0f (PyInt (2 ^ 53 + 1)) = Retorna "9,007,199,254,740,992"%string
  ∧ format_coma_0f (PyDecimal false (2 ^ 53 + 1)) = Retorna "9,007,199,254,740,993"%string
  ∧ format_coma_0f (PyInt (2 ^ 1024)) = Lanza OverflowError
  ∧ format_coma_0f (PyInt (- 1234)) = Retorna "-1,234"%string
  ∧ format_coma_0f (PyDecimal true 0) = Retorna "-0"%string.
Proof. split_and!; vm_compute; reflexivity. Qed.

(** ** Percent-encoding *)

Lemma decode_byte_ok (c : ascii) : decode_byte c = Some c.
Proof. destruct c as [[] [] [] [] [] [] [] []]; vm_compute; reflexivity. Qed.

(** A byte that [quote] leaves alone is not the escape character. *)
Lemma es_seguro_no_escape (c : ascii) :
  es_seguro c = true → Ascii.eqb c "%" = false.
Proof. destruct c as [[] [] [] [] [] [] [] []]; vm_compute; congruence. Qed.

Lemma unquote_quote (s : string) : unquote (quote s) = s.
Proof.
  induction s as [|c s IH]; [reflexivity|].
  cbn [quote]. destruct (es_seguro c) eqn:Hc.
  - cbn [unquote]. by rewrite (es_seguro_no_escape c Hc), IH.
  - pose proof (decode_byte_ok c) as Hdec. unfold decode_byte in Hdec.
    cbn [unquote]. change (Ascii.eqb "%" "%") with true. cbv iota.
    destruct (hex_value (hex_digit (nat_of_ascii c / 16))) as [x|]; [|done].
    destruct (hex_value (hex_digit (nat_of_ascii c `mod` 16))) as [y|]; [|done].
    injection Hdec as Hdec. rewrite IH.
    apply (f_equal (λ a, String a s)). exact Hdec.
Qed.

(** ** Producto.get_whatsapp_url *)

(** On codes that occur once in the list, the label that [get_FOO_display]
    looks up is the label the list pairs with the code. *)
Lemma get_FIELD_display_etiqueta_de (choices : list (string * string)) (codigo : string) :
  NoDup choices.*1 →
  get_FIELD_display choices codigo = etiqueta_de choices codigo.
Proof.
  intros Hnodup. unfold get_FIELD_display, choices_dict.
  assert (Hrev : NoDup (reverse choices).*1) by (by rewrite fmap_reverse, reverse_Permutation).
  destruct ((list_to_map (reverse choices) : gmap string string) !! codigo)
    as [etiqueta|] eqn:Hlook; simpl.
  - apply elem_of_list_to_map in Hlook; [|done].
    rewrite elem_of_reverse in Hlook.
    clear Hrev. induction choices as [|[c e] choices IH]; [by apply elem_of_nil in Hlook|].
    apply NoDup_cons in Hnodup as [Hc Hnodup]. simpl.
    apply elem_of_cons in Hlook as [[= -> ->]|Hin].
    + by rewrite String.eqb_refl.
    + destruct (String.eqb_spec c codigo) as [->|_]; [|by apply IH].
      destruct Hc. apply list_elem_of_fmap. by exists (codigo, etiqueta).
  - apply not_elem_of_list_to_map in Hlook.
    rewrite fmap_reverse, elem_of_reverse in Hlook.
    clear Hrev Hnodup. induction choices as [|[c e] choices IH]; [done|].
    simpl in *. apply not_elem_of_cons in Hlook as [Hne Hlook].
    destruct (String.eqb_spec c codigo) as [->|_]; [done|by apply IH].
Qed.

Lemma linea_opcional_truthy (rotulo : string) (v : option string) :
  (if truthy v then rotulo +:+ default EmptyString v +:+ nl else EmptyString)
  = linea_opcional rotulo v.
Proof. by destruct v as [[|c resto]|]. Qed.

Lemma linea_tipo_pantalon (p : Producto.t) :
  (if truthy (Producto.tipo_pantalon p)
   then "Tipo: " +:+ Producto.get_tipo_pantalon_display p +:+ nl
   else EmptyString)
  = linea_tipo Producto.TIPO_PANTALON_CHOICES (Producto.tipo_pantalon p).
Proof.
  unfold Producto.get_tipo_pantalon_display.
  destruct (Producto.tipo_pantalon p) as [[|c resto]|]; [done| |done].
  simpl. rewrite get_FIELD_display_etiqueta_de; [done|].
  apply (bool_decide_unpack _). vm_compute. exact I.
Qed.

Lemma linea_tipo_accesorio (p : Producto.t) :
  (if truthy (Producto.tipo_accesorio p)
   then "Tipo: " +:+ Producto.get_tipo_accesorio_display p +:+ nl
   else EmptyString)
  = linea_tipo Producto.TIPO_ACCESORIO_CHOICES (Producto.tipo_accesorio p).
Proof.
  unfold Producto.get_tipo_accesorio_display.
  destruct (Producto.tipo_accesorio p) as [[|c resto]|]; [done| |done].
  simpl. rewrite get_FIELD_display_etiqueta_de; [done|].
  apply (bool_decide_unpack _). vm_compute. exact I.
Qed.

(** The message read line by line. *)
Lemma mensaje_whatsapp_lineas (p : Producto.t) (talla : option string)
    (precio_txt : string) :
  Producto.precio_formateado p = Retorna precio_txt →
  Producto.mensaje_whatsapp p talla = Retorna
    ("Hola! Estoy interesado en: *" +:+ Producto.nombre p +:+ "*"
     +:+ String "010" EmptyString
     +:+ "Precio: " +:+ precio_txt +:+ String "010" EmptyString
     +:+ linea_opcional "Talla: " talla
     +:+ linea_tipo Producto.TIPO_PANTALON_CHOICES (Producto.tipo_pantalon p)
     +:+ linea_tipo Producto.TIPO_ACCESORIO_CHOICES (Producto.tipo_accesorio p)
     +:+ linea_opcional "Color: " (Producto.color p)
     +:+ String "010" EmptyString +:+ "¿Está disponible?").
Proof.
  unfold Producto.precio_formateado, Producto.mensaje_whatsapp.
  destruct (format_coma_0f (Producto.precio p)) as [txt|e]; [|done].
  simpl. intros [= <-]. f_equal.
  rewrite <- (linea_opcional_truthy "Talla: " talla).
  rewrite <- (linea_opcional_truthy "Color: " (Producto.color p)).
  rewrite <- linea_tipo_pantalon, <- linea_tipo_accesorio.
  change (String "010" EmptyString) with nl.
  destruct (truthy talla), (truthy (Producto.tipo_pantalon p)),
    (truthy (Producto.tipo_accesorio p)), (truthy (Producto.color p));
    rewrite !string_app_assoc; reflexivity.
Qed.

Lemma get_whatsapp_url_mensaje (p : Producto.t) (talla : option string) :
  Producto.get_whatsapp_url p talla
  = (λ mensaje, "https://wa.me/56992154182?text=" +:+ quote mensaje)
      <$> Producto.mensaje_whatsapp p talla.
Proof.
  unfold Producto.get_whatsapp_url.
  by destruct (Producto.mensaje_whatsapp p talla).
Qed.

(** C7: [get_whatsapp_url] is the fixed base [https://wa.me/56992154182]
    with a [?text=] parameter that holds the percent-encoded message. The
    decoded message has, each on a line of its own, the name, the
    formatted price, the size when one is given, the label that the
    choices give for [tipo_pantalon] and for [tipo_accesorio] when set,
    the colour when set, and after an empty line the closing question.
    For "Polera Negra" at 9990 with size "M" and neither sub-type nor
    colour set, the decoded text is the five lines of the example and the
    link is the one written out. The price has to be one that can be
    formatted, as 9990 is. *)
Theorem get_whatsapp_url_spec (p : Producto.t) (talla : option string)
    (precio_txt : string) :
  Producto.precio_formateado p = Retorna precio_txt →
  let salto := String "010" EmptyString in
  let texto :=
    "Hola! Estoy interesado en: *" +:+ Producto.nombre p +:+ "*" +:+ salto
    +:+ "Precio: " +:+ precio_txt +:+ salto
    +:+ linea_opcional "Talla: " talla
    +:+ linea_tipo Producto.TIPO_PANTALON_CHOICES (Producto.tipo_pantalon p)
    +:+ linea_tipo Producto.TIPO_ACCESORIO_CHOICES (Producto.tipo_accesorio p)
    +:+ linea_opcional "Color: " (Producto.color p)
    +:+ salto +:+ "¿Está disponible?" in
  Producto.get_whatsapp_url p talla
  = Retorna ("https://wa.me/56992154182" +:+ "?text=" +:+ quote texto)
  ∧ unquote (quote texto) = texto
  ∧ (Producto.nombre p = "Polera Negra"%string →
     valor (Producto.precio p) = 9990 →
     talla = Some "M"%string →
     Producto.tipo_pantalon p = None →
     Producto.tipo_accesorio p = None →
     Producto.color p = None →
     texto = "Hola! Estoy interesado en: *Polera Negra*" +:+ salto
             +:+ "Precio: $9,990" +:+ salto
             +:+ "Talla: M" +:+ salto
             +:+ salto +:+ "¿Está disponible?"
     ∧ Producto.get_whatsapp_url p talla = Retorna
         "https://wa.me/56992154182?text=Hola%21%20Estoy%20interesado%20en%3A%20%2APolera%20Negra%2A%0APrecio%3A%20%249%2C990%0ATalla%3A%20M%0A%0A%C2%BFEst%C3%A1%20disponible%3F"%string).
Proof.
  intros Hprecio salto texto.
  pose proof (mensaje_whatsapp_lineas p talla precio_txt Hprecio) as Hmensaje.
  assert (Hurl : Producto.get_whatsapp_url p talla
                 = Retorna ("https://wa.me/56992154182" +:+ "?text=" +:+ quote texto)).
  { rewrite get_whatsapp_url_mensaje, Hmensaje. subst texto salto.
    cbn [fmap py_fmap]. apply (f_equal Retorna).
    change "https://wa.me/56992154182?text="%string
      with ("https://wa.me/56992154182" +:+ "?text=").
    apply string_app_assoc. }
  split; [exact Hurl|]. split; [apply unquote_quote|].
  intros Hnombre Hvalor -> Hpant Hacc Hcolor.
  assert (precio_txt = "$9,990"%string) as ->.
  { revert Hprecio. unfold Producto.precio_formateado.
    destruct (Producto.precio p) as [n|[|] c]; simpl in Hvalor.
    - subst n. vm_compute. congruence.
    - lia.
    - replace c with 9990%N by lia. vm_compute. congruence. }
  rewrite Hurl. subst texto salto.
  rewrite Hnombre, Hpant, Hacc, Hcolor.
  split; vm_compute; reflexivity.
Qed.

Lemma get_whatsapp_url_spec_witness :
  Producto.get_whatsapp_url Muestra.polera_negra (Some "M"%string) = Retorna
    "https://wa.me/56992154182?text=Hola%21%20Estoy%20interesado%20en%3A%20%2APolera%20Negra%2A%0APrecio%3A%20%249%2C990%0ATalla%3A%20M%0A%0A%C2%BFEst%C3%A1%20disponible%3F"%string.
Proof.
  destruct (get_whatsapp_url_spec Muestra.polera_negra (Some "M"%string) "$9,990")
    as (_ & _ & Hejemplo).
  - vm_compute. reflexivity.
  - apply Hejemplo; reflexivity.
Defined.

(** The link of the example, byte for byte. *)
Example get_whatsapp_url_muestra :
  Producto.get_whatsapp_url Muestra.polera_negra (Some "M"%string)
  = Retorna "https://wa.me/56992154182?text=Hola%21%20Estoy%20interesado%20en%3A%20%2APolera%20Negra%2A%0APrecio%3A%20%249%2C990%0ATalla%3A%20M%0A%0A%C2%BFEst%C3%A1%20disponible%3F"%string.
Proof. vm_compute. reflexivity. Qed.

(** An accessory shows its sub-type label and its colour, and no size line
    when no size is asked for. *)
Example mensaje_whatsapp_cinturon :
  Producto.mensaje_whatsapp Muestra.cinturon None
  = Retorna ("Hola! Estoy interesado en: *Cinturon*" +:+ String "010" EmptyString
             +:+ "Precio: $15,000" +:+ String "010" EmptyString
             +:+ "Tipo: Cinturón" +:+ String "010" EmptyString
             +:+ "Color: Negro" +:+ String "010" EmptyString
             +:+ String "010" EmptyString +:+ "¿Está disponible?").
Proof. vm_compute. reflexivity. Qed.

(** ** Producto.Meta.ordering *)

(** What [Meta.ordering] asks of two rows: the first is featured and the
    second is not, or both agree on [destacado] and the first is not
    older. *)
Lemma precede_spec (a b : Producto.t) :
  Producto.precede a b ↔
  (Producto.destacado a = true ∧ Producto.destacado b = false)
  ∨ (Producto.destacado a = Producto.destacado b
     ∧ Producto.fecha_creacion b ≤ Producto.fecha_creacion a).
Proof.
  unfold Producto.precede, Producto.ordering.
  cbn [Producto.compara Producto.compara_campo].
  change (Producto.clave "destacado" b) with (Z.b2z (Producto.destacado b)).
  change (Producto.clave "destacado" a) with (Z.b2z (Producto.destacado a)).
  change (Producto.clave "fecha_creacion" b) with (Producto.fecha_creacion b).
  change (Producto.clave "fecha_creacion" a) with (Producto.fecha_creacion a).
  destruct (Producto.destacado a), (Producto.destacado b); simpl;
    try (destruct (Z.compare_spec (Producto.fecha_creacion b) (Producto.fecha_creacion a)));
    (split; [intros Hcmp|intros [[? ?]|[? ?]]]);
    try done; try lia;
    first [left; split; done | right; split; [done|lia]].
Qed.

#[local] Instance precede_total : Total Producto.precede.
Proof.
  intros a b. rewrite !precede_spec.
  destruct (Producto.destacado a), (Producto.destacado b);
    destruct (Z.le_ge_cases (Producto.fecha_creacion a) (Producto.fecha_creacion b));
    auto.
Qed.

#[local] Instance precede_trans : Transitive Producto.precede.
Proof.
  intros a b c. rewrite !precede_spec.
  destruct (Producto.destacado a), (Producto.destacado b), (Producto.destacado c);
    intros [[? ?]|[? ?]] [[? ?]|[? ?]]; try done;
    first [by left | right; split; [done|lia]].
Qed.

Lemma StronglySorted_lookup {A} (R : relation A) (l : list A) (i j : nat) (a b : A) :
  StronglySorted R l → (i < j)%nat → l !! i = Some a → l !! j = Some b → R a b.
Proof.
  intros Hsorted. revert i j. induction Hsorted as [|x l _ IH Hall]; intros i j Hij Hi Hj.
  - done.
  - destruct j as [|j]; [lia|]. destruct i as [|i]; simpl in *.
    + injection Hi as <-. rewrite Forall_forall in Hall.
      apply Hall. by eapply list_elem_of_lookup_2.
    + apply (IH i j); [lia|done|done].
Qed.

(** C8: the default listing holds exactly the rows of the table, featured
    products come before products that are not featured, and among products
    with the same [destacado] the one created later comes first. *)
Theorem listado_spec (tabla : gmap positive Producto.t) :
  Producto.listado tabla ≡ₚ qs_all tabla
  ∧ ∀ (i j : nat) (a b : Producto.t),
      (i < j)%nat →
      Producto.listado tabla !! i = Some a →
      Producto.listado tabla !! j = Some b →
      (Producto.destacado b = true → Producto.destacado a = true)
      ∧ (Producto.destacado a = Producto.destacado b →
         Producto.fecha_creacion b ≤ Producto.fecha_creacion a).
Proof.
  split.
  - apply merge_sort_Permutation.
  - intros i j a b Hij Ha Hb.
    assert (Hab : Producto.precede a b).
    { eapply (StronglySorted_lookup _ (Producto.listado tabla) i j); [|done..].
      apply StronglySorted_merge_sort; apply _. }
    apply precede_spec in Hab as [[Hda Hdb]|[Hd Hf]].
    + split; [done|]. congruence.
    + split; [congruence|done].
Qed.

(** The sample catalogue lists the featured belt first, then the joggers
    (created at 200), then the T-shirt (created at 100). *)
Example listado_muestra :
  Producto.listado Muestra.productos
  = [Muestra.cinturon; Muestra.jogger_gris; Muestra.polera_negra].
Proof. vm_compute. reflexivity. Qed.

Lemma listado_spec_witness :
  (Producto.destacado Muestra.polera_negra = true →
   Producto.destacado Muestra.cinturon = true)
  ∧ Producto.fecha_creacion Muestra.polera_negra
    ≤ Producto.fecha_creacion Muestra.jogger_gris.
Proof.
  destruct (listado_spec Muestra.productos) as [_ Horden].
  split.
  - apply (Horden 0%nat 2%nat Muestra.cinturon Muestra.polera_negra);
      [lia|reflexivity|reflexivity].
  - apply (Horden 1%nat 2%nat Muestra.jogger_gris Muestra.polera_negra);
      [lia|reflexivity|reflexivity|reflexivity].
Defined.

(** * Further properties *)

(** ** Stock: how the derived values fit together *)

(** Quantities that are not negative: their sum is positive exactly when
    one of them is, and no one of them exceeds the sum. *)
Lemma py_sum_pos_exists (rows : list StockTalla.t) :
  Forall (λ st, 0 ≤ StockTalla.cantidad st) rows →
  0 ≤ py_sum (StockTalla.cantidad <$> rows)
  ∧ qs_exists (qs_filter (λ st, 0 <? StockTalla.cantidad st) rows)
    = (0 <? py_sum (StockTalla.cantidad <$> rows)).
Proof.
  induction 1 as [|st rows Hst _ [IHpos IH]].
  - split; reflexivity.
  - rewrite fmap_cons, py_sum_cons. split; [lia|].
    unfold qs_filter in *. simpl.
    destruct (Z.ltb_spec 0 (StockTalla.cantidad st)) as [Hpos|Hzero].
    + simpl. symmetry. apply Z.ltb_lt. lia.
    + rewrite IH. replace (StockTalla.cantidad st) with 0 by lia. done.
Qed.

Lemma py_sum_elem_le (rows : list StockTalla.t) (st : StockTalla.t) :
  Forall (λ st, 0 ≤ StockTalla.cantidad st) rows →
  st ∈ rows →
  StockTalla.cantidad st ≤ py_sum (StockTalla.cantidad <$> rows).
Proof.
  intros Hall Hin. induction Hin as [st rows|st st' rows _ IH].
  - apply Forall_cons in Hall as [_ Hall].
    rewrite fmap_cons, py_sum_cons.
    pose proof (py_sum_pos_exists rows Hall) as [Hpos _]. lia.
  - apply Forall_cons in Hall as [Hst' Hall].
    rewrite fmap_cons, py_sum_cons. specialize (IH Hall). lia.
Qed.

Lemma cantidades_validas_Forall (tabla : gmap positive StockTalla.t) (p : Producto.t)
    (k : positive) :
  Producto.pk p = Some k →
  cantidades_validas tabla p →
  Forall (λ st, 0 ≤ StockTalla.cantidad st) (Producto.stock_tallas_de tabla k).
Proof.
  intros Hpk Hval. apply Forall_forall. intros st Hst.
  apply elem_of_stock_tallas_de in Hst as [[key Hkey] Hfk].
  apply (Hval key); [done|]. by rewrite Hpk, Hfk.
Qed.

(** The sample stock passes the validator. *)
Lemma muestra_cantidades_validas (p : Producto.t) :
  cantidades_validas Muestra.stock p.
Proof.
  intros k st Hk _.
  assert (Hin : st ∈ qs_all Muestra.stock) by (apply elem_of_qs_all; eauto).
  revert Hin. vm_compute.
  intros Hin. repeat (apply elem_of_cons in Hin as [->|Hin]; [vm_compute; discriminate|]).
  by apply not_elem_of_nil in Hin.
Qed.

(** X1: with validated quantities, a product is available exactly when its
    total stock is positive, for accessories and for sized products
    alike: [tiene_stock] is the test [0 < n] on the result [n] of
    [stock_total], and raises what [stock_total] raises. *)
Theorem tiene_stock_iff_stock_total (tabla : gmap positive StockTalla.t) (p : Producto.t) :
  cantidades_validas tabla p →
  Producto.tiene_stock tabla p = (λ n, 0 <? n) <$> Producto.stock_total tabla p
  ∧ (Producto.tiene_stock tabla p = Retorna true ↔
     ∃ n, Producto.stock_total tabla p = Retorna n ∧ 0 < n).
Proof.
  intros Hval.
  assert (Heq : Producto.tiene_stock tabla p
                = (λ n, 0 <? n) <$> Producto.stock_total tabla p).
  { destruct (decide (Categoria.tipo (Producto.categoria p) = "accesorio"%string))
      as [Ht|Ht].
    - by destruct (stock_accesorio_cases tabla p Ht) as [-> ->].
    - destruct (Producto.pk p) as [k|] eqn:Hpk.
      + destruct (stock_ropa_cases tabla p k Ht Hpk) as [-> ->].
        cbn [fmap py_fmap]. f_equal.
        apply py_sum_pos_exists. by apply (cantidades_validas_Forall tabla p).
      + by destruct (stock_sin_pk_cases tabla p Ht Hpk) as [-> ->]. }
  split; [exact Heq|]. rewrite Heq.
  destruct (Producto.stock_total tabla p) as [n|e]; cbn [fmap py_fmap].
  - split.
    + intros [= Hn]. exists n. split; [done|]. by apply Z.ltb_lt.
    + intros (n' & [= <-] & Hn). f_equal. by apply Z.ltb_lt.
  - split; [done|]. by intros (n & Hn & _).
Qed.

Lemma tiene_stock_iff_stock_total_witness :
  Producto.tiene_stock Muestra.stock Muestra.polera_negra = Retorna true.
Proof.
  destruct (tiene_stock_iff_stock_total Muestra.stock Muestra.polera_negra) as [_ Hiff].
  - apply muestra_cantidades_validas.
  - apply Hiff. exists 3. split; [vm_compute; reflexivity|lia].
Defined.

(** X2: under the same validation, the total stock of a sized product is
    never negative and no size holds more units than the total. *)
Theorem stock_total_cota (tabla : gmap positive StockTalla.t) (p : Producto.t)
    (k : positive) (st : StockTalla.t) :
  Categoria.tipo (Producto.categoria p) ≠ "accesorio"%string →
  cantidades_validas tabla p →
  tabla !! k = Some st →
  Some (StockTalla.producto st) = Producto.pk p →
  ∃ total, Producto.stock_total tabla p = Retorna total
           ∧ 0 ≤ StockTalla.cantidad st ≤ total.
Proof.
  intros Htipo Hval Hk Hfk. symmetry in Hfk.
  destruct (stock_ropa_cases tabla p _ Htipo Hfk) as [_ ->].
  eexists. split; [reflexivity|].
  split; [apply (Hval k); [done|by rewrite Hfk]|].
  apply py_sum_elem_le; [by apply (cantidades_validas_Forall tabla p)|].
  apply elem_of_stock_tallas_de. eauto.
Qed.

Lemma stock_total_cota_witness :
  ∃ total, Producto.stock_total Muestra.stock Muestra.polera_negra = Retorna total
           ∧ 0 ≤ 3 ≤ total.
Proof.
  apply (stock_total_cota Muestra.stock Muestra.polera_negra 2%positive
           (StockTalla.Build (Some 2%positive) 1 "M" 3)).
  - done.
  - apply muestra_cantidades_validas.
  - reflexivity.
  - reflexivity.
Defined.

(** X3: writing a new quantity into a size of a sized product moves the
    total by the difference; rows of other products do not count on
    either side. On an instance that was never saved the total raises
    before and after. *)
Theorem stock_total_actualiza (tabla : gmap positive StockTalla.t) (p : Producto.t)
    (k : positive) (vieja nueva : StockTalla.t) :
  Categoria.tipo (Producto.categoria p) ≠ "accesorio"%string →
  tabla !! k = Some vieja →
  Producto.stock_total (<[k := nueva]> tabla) p =
    (λ total,
       total
       - (if bool_decide (Some (StockTalla.producto vieja) = Producto.pk p)
          then StockTalla.cantidad vieja else 0)
       + (if bool_decide (Some (StockTalla.producto nueva) = Producto.pk p)
          then StockTalla.cantidad nueva else 0))
    <$> Producto.stock_total tabla p.
Proof.
  intros Htipo Hk.
  destruct (Producto.pk p) as [kp|] eqn:Hpk.
  - destruct (stock_ropa_cases tabla p kp Htipo Hpk) as [_ ->].
    destruct (stock_ropa_cases (<[k := nueva]> tabla) p kp Htipo Hpk) as [_ ->].
    cbn [fmap py_fmap]. f_equal.
    rewrite <- (insert_delete_id tabla k vieja Hk) at 2.
    rewrite <- (insert_delete_eq tabla k nueva).
    rewrite !suma_stock_insert by apply lookup_delete_eq.
    destruct (Pos.eqb_spec (StockTalla.producto vieja) kp) as [->|Hv];
      destruct (Pos.eqb_spec (StockTalla.producto nueva) kp) as [->|Hn];
      repeat case_bool_decide; try congruence; lia.
  - destruct (stock_sin_pk_cases tabla p Htipo Hpk) as [_ ->].
    by destruct (stock_sin_pk_cases (<[k := nueva]> tabla) p Htipo Hpk) as [_ ->].
Qed.

Lemma stock_total_actualiza_witness :
  Producto.stock_total
    (<[2%positive := StockTalla.Build (Some 2%positive) 1 "M" 2]> Muestra.stock)
    Muestra.polera_negra
  = (λ total, total - 3 + 2) <$> Producto.stock_total Muestra.stock Muestra.polera_negra.
Proof.
  apply (stock_total_actualiza Muestra.stock Muestra.polera_negra 2%positive
           (StockTalla.Build (Some 2%positive) 1 "M" 3)
           (StockTalla.Build (Some 2%positive) 1 "M" 2)).
  - done.
  - reflexivity.
Defined.

(** X4: a sized product is available exactly when one of its sizes is in a
    state other than ['sin_stock'], provided the quantities are validated;
    without validation an available product still has such a size. *)
Theorem tiene_stock_estado_stock (tabla : gmap positive StockTalla.t) (p : Producto.t) :
  Categoria.tipo (Producto.categoria p) ≠ "accesorio"%string →
  (Producto.tiene_stock tabla p = Retorna true →
   ∃ k st, tabla !! k = Some st
           ∧ Some (StockTalla.producto st) = Producto.pk p
           ∧ StockTalla.estado_stock st ≠ "sin_stock"%string)
  ∧ (cantidades_validas tabla p →
     (∃ k st, tabla !! k = Some st
              ∧ Some (StockTalla.producto st) = Producto.pk p
              ∧ StockTalla.estado_stock st ≠ "sin_stock"%string) →
     Producto.tiene_stock tabla p = Retorna true).
Proof.
  intros Htipo. split.
  - destruct (Producto.pk p) as [kp|] eqn:Hpk.
    2:{ by destruct (stock_sin_pk_cases tabla p Htipo Hpk) as [-> _]. }
    destruct (stock_ropa_cases tabla p kp Htipo Hpk) as [-> _].
    intros [= Hex]. apply qs_exists_true in Hex as [st Hst].
    apply elem_of_qs_filter in Hst as [Hst Hpos].
    apply elem_of_stock_tallas_de in Hst as [[k Hk] Hfk].
    apply Z.ltb_lt in Hpos. exists k, st. split_and!; [done|by rewrite Hfk|].
    destruct (estado_stock_cases st) as [[Hc _]|[(_ & _ & ->)|[_ ->]]]; [lia|done|done].
  - intros Hval (k & st & Hk & Hfk & Hestado).
    symmetry in Hfk.
    destruct (stock_ropa_cases tabla p _ Htipo Hfk) as [-> _].
    f_equal. apply qs_exists_true. exists st.
    apply elem_of_qs_filter. split; [apply elem_of_stock_tallas_de; eauto|].
    apply Z.ltb_lt. specialize (Hval k st Hk (eq_sym Hfk)).
    destruct (estado_stock_cases st) as [[Hc He]|[(Hc0 & _ & _)|[Hc _]]]; [done|lia|lia].
Qed.

Lemma tiene_stock_estado_stock_witness :
  ∃ k st, Muestra.stock !! k = Some st
          ∧ Some (StockTalla.producto st) = Producto.pk Muestra.polera_negra
          ∧ StockTalla.estado_stock st ≠ "sin_stock"%string.
Proof.
  destruct (tiene_stock_estado_stock Muestra.stock Muestra.polera_negra) as [Hida _].
  - done.
  - apply Hida. vm_compute. reflexivity.
Defined.

(** ** StockTalla.estado_stock *)

(** X5: more units never give a worse state: once a quantity is
    ['buen_stock'] every larger one is, and when a quantity is
    ['sin_stock'] every validated smaller one is. *)
Theorem estado_stock_monotono (s1 s2 : StockTalla.t) :
  StockTalla.cantidad s1 ≤ StockTalla.cantidad s2 →
  (StockTalla.estado_stock s1 = "buen_stock"%string →
   StockTalla.estado_stock s2 = "buen_stock"%string)
  ∧ (0 ≤ StockTalla.cantidad s1 →
     StockTalla.estado_stock s2 = "sin_stock"%string →
     StockTalla.estado_stock s1 = "sin_stock"%string).
Proof.
  intros Hle.
  destruct (estado_stock_cases s1) as [[H1 ->]|[(H1 & H1' & ->)|[H1 ->]]];
    destruct (estado_stock_cases s2) as [[H2 ->]|[(H2 & H2' & ->)|[H2 ->]]];
    split; intros; try done; lia.
Qed.

Lemma estado_stock_monotono_witness :
  StockTalla.estado_stock (StockTalla.Build None 1 "S" 9) = "buen_stock"%string.
Proof.
  assert (Hle : StockTalla.cantidad (StockTalla.Build None 1 "S" 6)
                ≤ StockTalla.cantidad (StockTalla.Build None 1 "S" 9)) by (simpl; lia).
  destruct (estado_stock_monotono _ _ Hle) as [Hbuen _].
  apply Hbuen. reflexivity.
Defined.

(** ** Producto.precio_formateado: reading the price back *)

Lemma lee_monto_app (acc : Z) (s1 s2 : string) :
  lee_monto acc (s1 +:+ s2) =
  match lee_monto acc s1 with
  | Some acc' => lee_monto acc' s2
  | None => None
  end.
Proof.
  revert acc. induction s1 as [|c s1 IH]; intros acc; [reflexivity|].
  change (String c s1 +:+ s2) with (String c (s1 +:+ s2)).
  cbn [lee_monto].
  destruct (Ascii.eqb c ","); [apply IH|].
  destruct ((48 <=? nat_of_ascii c) && (nat_of_ascii c <=? 57))%nat; [apply IH|done].
Qed.

Lemma lee_monto_digito (acc d : Z) (resto : string) :
  0 ≤ d ≤ 9 →
  lee_monto acc (String (digito d) resto) = lee_monto (10 * acc + d) resto.
Proof.
  intros Hd.
  assert (d = 0 ∨ d = 1 ∨ d = 2 ∨ d = 3 ∨ d = 4 ∨ d = 5 ∨ d = 6 ∨ d = 7 ∨ d = 8 ∨ d = 9)
    as Hcasos by lia.
  repeat destruct Hcasos as [->|Hcasos]; try subst d; reflexivity.
Qed.

Lemma lee_monto_tres_cifras (acc m : Z) :
  0 ≤ m < 1000 → lee_monto acc (tres_cifras m) = Some (1000 * acc + m).
Proof.
  intros Hm. unfold tres_cifras.
  assert (H2 : 0 ≤ m / 100 ≤ 9) by (Z.to_euclidean_division_equations; lia).
  assert (H1 : 0 ≤ m / 10 mod 10 ≤ 9) by (Z.to_euclidean_division_equations; lia).
  assert (H0 : 0 ≤ m mod 10 ≤ 9) by (Z.to_euclidean_division_equations; lia).
  rewrite (lee_monto_digito _ _ _ H2), (lee_monto_digito _ _ _ H1), (lee_monto_digito _ _ _ H0).
  cbn [lee_monto]. apply f_equal. Z.to_euclidean_division_equations; lia.
Qed.

Lemma lee_monto_sin_ceros (m : Z) :
  0 ≤ m < 1000 → lee_monto 0 (sin_ceros m) = Some m.
Proof.
  intros Hm. unfold sin_ceros.
  destruct (Z.ltb_spec m 10); [|destruct (Z.ltb_spec m 100)].
  - rewrite lee_monto_digito by lia. cbn [lee_monto]. apply f_equal. lia.
  - assert (Hd1 : 0 ≤ m / 10 ≤ 9) by (Z.to_euclidean_division_equations; lia).
    assert (Hd0 : 0 ≤ m mod 10 ≤ 9) by (Z.to_euclidean_division_equations; lia).
    rewrite (lee_monto_digito _ _ _ Hd1), (lee_monto_digito _ _ _ Hd0).
    cbn [lee_monto]. apply f_equal. Z.to_euclidean_division_equations; lia.
  - rewrite lee_monto_tres_cifras by done. apply f_equal. lia.
Qed.

Lemma lee_monto_agrupado (n : Z) (s : string) :
  agrupado n s → lee_monto 0 s = Some n.
Proof.
  induction 1 as [n Hn|n s Hn _ IH].
  - by apply lee_monto_sin_ceros.
  - rewrite lee_monto_app, IH.
    change ("," +:+ tres_cifras (n `mod` 1000)) with (String "," (tres_cifras (n `mod` 1000))).
    cbn [lee_monto]. change (Ascii.eqb "," ",") with true. cbv iota.
    rewrite lee_monto_tres_cifras by (apply Z.mod_pos_bound; lia).
    apply f_equal. Z.to_euclidean_division_equations; lia.
Qed.

(** X6: the formatted price of a price that is not negative and is not
    rounded (every price that fits the field, any [Decimal], any [int]
    below [2 ^ 53]) reads back as that price: drop the ['$'], skip the
    commas, read the digits. So two such prices that are formatted alike
    have the same value. *)
Theorem precio_formateado_lee (p : Producto.t) :
  no_negativo (Producto.precio p) = true →
  sin_redondeo (Producto.precio p) = true →
  (∃ texto, Producto.precio_formateado p = Retorna texto
            ∧ lee_precio texto = Some (valor (Producto.precio p)))
  ∧ ∀ q, no_negativo (Producto.precio q) = true →
         sin_redondeo (Producto.precio q) = true →
         Producto.precio_formateado p = Producto.precio_formateado q →
         valor (Producto.precio p) = valor (Producto.precio q).
Proof.
  assert (Hlee : ∀ r, no_negativo (Producto.precio r) = true →
                      sin_redondeo (Producto.precio r) = true →
                      ∃ texto, Producto.precio_formateado r = Retorna texto
                               ∧ lee_precio texto = Some (valor (Producto.precio r))).
  { intros r Hsigno Hexacto.
    destruct (format_coma_0f_exacto _ Hsigno Hexacto) as [Hpos Hfmt].
    unfold Producto.precio_formateado. rewrite Hfmt.
    eexists. split; [reflexivity|].
    change ("$" +:+ format_miles (valor (Producto.precio r)))
      with (String "$" (format_miles (valor (Producto.precio r)))).
    cbn [lee_precio]. apply lee_monto_agrupado. by apply format_miles_agrupado. }
  intros Hp_signo Hp_exacto. split; [by apply Hlee|].
  intros q Hq_signo Hq_exacto Heq.
  destruct (Hlee p Hp_signo Hp_exacto) as (tp & Hp & Hp').
  destruct (Hlee q Hq_signo Hq_exacto) as (tq & Hq & Hq').
  rewrite Hp, Hq in Heq. injection Heq as ->. congruence.
Qed.

Lemma precio_formateado_lee_witness :
  ∃ texto, Producto.precio_formateado Muestra.jogger_gris = Retorna texto
           ∧ lee_precio texto = Some 19990.
Proof.
  destruct (precio_formateado_lee Muestra.jogger_gris) as [Hlee _];
    [reflexivity|reflexivity|].
  exact Hlee.
Defined.

(** Without the bound the reading fails: the [int] [2 ^ 53 + 1] is
    formatted as [2 ^ 53]. *)
Example precio_formateado_redondeado :
  (texto ← format_coma_0f (PyInt (2 ^ 53 + 1)); mret (lee_monto 0 texto))
  = Retorna (Some (2 ^ 53)).
Proof. vm_compute. reflexivity. Qed.

(** ** Producto.get_whatsapp_url: the characters of the link *)

(** Both hexadecimal digits of an escape are characters that need no
    escape themselves. *)
Lemma hex_digit_seguro (c : ascii) :
  es_seguro (hex_digit (nat_of_ascii c / 16)) = true
  ∧ es_seguro (hex_digit (nat_of_ascii c `mod` 16)) = true.
Proof. destruct c as [[] [] [] [] [] [] [] []]; vm_compute; split; reflexivity. Qed.

Lemma quote_chars (s : string) (c : ascii) :
  In c (list_ascii_of_string (quote s)) → es_seguro c = true ∨ c = "%"%char.
Proof.
  induction s as [|b s IH]; [done|].
  cbn [quote]. destruct (es_seguro b) eqn:Hb.
  - cbn [list_ascii_of_string In]. intros [<-|Hin]; [by left|by apply IH].
  - destruct (hex_digit_seguro b) as [Hhi Hlo].
    cbn [list_ascii_of_string In].
    intros [<-|[<-|[<-|Hin]]]; [by right|by left|by left|by apply IH].
Qed.

(** A link is returned exactly when the price can be formatted. *)
Lemma get_whatsapp_url_retorna (p : Producto.t) (talla : option string) :
  (∃ url, Producto.get_whatsapp_url p talla = Retorna url) ↔
  (∃ texto, Producto.precio_formateado p = Retorna texto).
Proof.
  rewrite get_whatsapp_url_mensaje.
  unfold Producto.mensaje_whatsapp, Producto.precio_formateado.
  destruct (format_coma_0f (Producto.precio p)) as [txt|e]; simpl.
  - split; intros _; eexists; reflexivity.
  - split; intros [? ?]; done.
Qed.

(** X7: after the fixed prefix, the link holds only letters, digits,
    [_ . - ~ /] and [%] escapes, whatever the name, size or colour contain:
    no space, line break, [&], [#], [=] or [?] of the message reaches the
    link unescaped. A link is returned whenever the price can be
    formatted, which is the case for every [Decimal] and every [int]
    within 53 bits. *)
Theorem get_whatsapp_url_chars (p : Producto.t) (talla : option string) :
  ((∃ url, Producto.get_whatsapp_url p talla = Retorna url) ↔
   (∃ texto, Producto.precio_formateado p = Retorna texto))
  ∧ (sin_redondeo (Producto.precio p) = true →
     ∃ url, Producto.get_whatsapp_url p talla = Retorna url)
  ∧ ∀ url, Producto.get_whatsapp_url p talla = Retorna url →
    ∃ q, url = "https://wa.me/56992154182?text=" +:+ q
         ∧ (∀ c, In c (list_ascii_of_string q) → es_seguro c = true ∨ c = "%"%char)
         ∧ ¬ In " "%char (list_ascii_of_string q)
         ∧ ¬ In "010"%char (list_ascii_of_string q)
         ∧ ¬ In "&"%char (list_ascii_of_string q)
         ∧ ¬ In "#"%char (list_ascii_of_string q)
         ∧ ¬ In "="%char (list_ascii_of_string q)
         ∧ ¬ In "?"%char (list_ascii_of_string q).
Proof.
  split_and!.
  - apply get_whatsapp_url_retorna.
  - intros Hexacto. apply get_whatsapp_url_retorna.
    unfold Producto.precio_formateado.
    destruct (Producto.precio p) as [n|negativo c]; simpl in *.
    + unfold float_de_int. rewrite Hexacto. simpl. eexists. reflexivity.
    + eexists. reflexivity.
  - intros url. rewrite get_whatsapp_url_mensaje.
    destruct (Producto.mensaje_whatsapp p talla) as [mensaje|e]; [|done].
    cbn [fmap py_fmap]. intros [= <-].
    exists (quote mensaje).
    split; [reflexivity|]. split; [apply quote_chars|].
    split_and!; intros Hin; apply quote_chars in Hin as [Hin|Hin]; discriminate.
Qed.

(** X8: the link loses nothing of the message: two links are equal only
    when their messages are. *)
Theorem get_whatsapp_url_inj (p1 p2 : Producto.t) (talla1 talla2 : option string) :
  Producto.get_whatsapp_url p1 talla1 = Producto.get_whatsapp_url p2 talla2 →
  Producto.mensaje_whatsapp p1 talla1 = Producto.mensaje_whatsapp p2 talla2.
Proof.
  rewrite !get_whatsapp_url_mensaje.
  destruct (Producto.mensaje_whatsapp p1 talla1) as [m1|e1],
    (Producto.mensaje_whatsapp p2 talla2) as [m2|e2];
    cbn [fmap py_fmap]; intros Heq; try done.
  injection Heq as Heq. apply (inj (String.app _)) in Heq.
  rewrite <- (unquote_quote m1), <- (unquote_quote m2). by rewrite Heq.
Qed.

Lemma get_whatsapp_url_inj_witness :
  Producto.mensaje_whatsapp Muestra.polera_negra (Some EmptyString)
  = Producto.mensaje_whatsapp Muestra.polera_negra None.
Proof.
  apply get_whatsapp_url_inj. reflexivity.
Defined.

(** ** Labels of the choice fields *)

Lemma get_FIELD_display_spec (choices : list (string * string)) (valor : string) :
  NoDup choices.*1 →
  (∀ etiqueta, (valor, etiqueta) ∈ choices → get_FIELD_display choices valor = etiqueta)
  ∧ (valor ∉ choices.*1 → get_FIELD_display choices valor = valor).
Proof.
  intros Hnodup. unfold get_FIELD_display, choices_dict. split.
  - intros etiqueta Hin.
    assert (Hlook : (list_to_map (reverse choices) : gmap string string) !! valor
                    = Some etiqueta).
    { apply elem_of_list_to_map.
      - by rewrite fmap_reverse, reverse_Permutation.
      - by apply elem_of_reverse. }
    by rewrite Hlook.
  - intros Hnotin.
    assert (Hlook : (list_to_map (reverse choices) : gmap string string) !! valor = None).
    { apply not_elem_of_list_to_map. rewrite fmap_reverse. by rewrite elem_of_reverse. }
    by rewrite Hlook.
Qed.

(** X9: the "Tipo" lines of the message show the label of the stored code,
    for instance "Pantalón Largo" for [pantalon_largo]; a code that is not
    among the choices is shown as it is stored, without an error. *)
Theorem get_display_spec (p : Producto.t) (valor : string) :
  (Producto.tipo_pantalon p = Some valor →
     (∀ etiqueta, (valor, etiqueta) ∈ Producto.TIPO_PANTALON_CHOICES →
                  Producto.get_tipo_pantalon_display p = etiqueta)
     ∧ (valor ∉ Producto.TIPO_PANTALON_CHOICES.*1 →
        Producto.get_tipo_pantalon_display p = valor))
  ∧ (Producto.tipo_accesorio p = Some valor →
     (∀ etiqueta, (valor, etiqueta) ∈ Producto.TIPO_ACCESORIO_CHOICES →
                  Producto.get_tipo_accesorio_display p = etiqueta)
     ∧ (valor ∉ Producto.TIPO_ACCESORIO_CHOICES.*1 →
        Producto.get_tipo_accesorio_display p = valor)).
Proof.
  split; intros Hvalor.
  - unfold Producto.get_tipo_pantalon_display. rewrite Hvalor. simpl.
    apply get_FIELD_display_spec.
    apply (bool_decide_unpack _). vm_compute. exact I.
  - unfold Producto.get_tipo_accesorio_display. rewrite Hvalor. simpl.
    apply get_FIELD_display_spec.
    apply (bool_decide_unpack _). vm_compute. exact I.
Qed.

Lemma get_display_spec_witness :
  Producto.get_tipo_pantalon_display Muestra.jogger_gris = "Jogger"%string
  ∧ Producto.get_tipo_accesorio_display Muestra.cinturon = "Cinturón"%string.
Proof.
  split.
  - destruct (get_display_spec Muestra.jogger_gris "jogger") as [[Hlabel _] _];
      [reflexivity|].
    apply Hlabel. apply (bool_decide_unpack _). vm_compute. exact I.
  - destruct (get_display_spec Muestra.cinturon "cinturon") as [_ [Hlabel _]];
      [reflexivity|].
    apply Hlabel. apply (bool_decide_unpack _). vm_compute. exact I.
Defined.

(** ** ImagenProducto.save: what is written and what is left alone *)

Lemma clear_principal_fila (p : positive) (tabla : gmap positive ImagenProducto.t)
    (k : positive) (fila : ImagenProducto.t) :
  tabla !! k = Some fila →
  ∃ fila', ImagenProducto.clear_principal p tabla !! k = Some fila'
           ∧ ImagenProducto.pk fila' = ImagenProducto.pk fila
           ∧ ImagenProducto.producto fila' = ImagenProducto.producto fila
           ∧ ImagenProducto.imagen fila' = ImagenProducto.imagen fila
           ∧ ImagenProducto.orden fila' = ImagenProducto.orden fila
           ∧ (ImagenProducto.es_principal fila' = true →
              ImagenProducto.es_principal fila = true)
           ∧ (ImagenProducto.producto fila ≠ p → fila' = fila).
Proof.
  intros Hk. rewrite lookup_clear_principal, Hk. simpl. eexists. split; [reflexivity|].
  destruct (Pos.eqb_spec (ImagenProducto.producto fila) p) as [Hp|Hp]; simpl.
  - destruct (ImagenProducto.es_principal fila) eqn:He; simpl;
      split_and!; try done; intros; congruence.
  - split_and!; done.
Qed.

(** X10: [save] stores the instance under the key it reports and removes
    nothing: every key of the table is still there, a new image makes the
    table one row longer, and saving an image that is already stored
    keeps the number of rows. *)
Theorem save_imagen_guarda (tabla : gmap positive ImagenProducto.t)
    (self : ImagenProducto.t) :
  let tabla' := (ImagenProducto.save tabla self).2 in
  let self' := (ImagenProducto.save tabla self).1 in
  (∃ k, ImagenProducto.pk self' = Some k ∧ tabla' !! k = Some self')
  ∧ self' = ImagenProducto.set_pk (ImagenProducto.pk self') self
  ∧ dom tabla ⊆ dom tabla'
  ∧ (ImagenProducto.pk self = None → size tabla' = S (size tabla))
  ∧ (∀ k, ImagenProducto.pk self = Some k → is_Some (tabla !! k) →
          size tabla' = size tabla).
Proof.
  intros tabla' self'. subst tabla' self'. rewrite save_unfold. cbn [fst snd].
  set (tabla1 := if ImagenProducto.es_principal self
                 then ImagenProducto.clear_principal (ImagenProducto.producto self) tabla
                 else tabla).
  assert (Hdom : dom tabla1 = dom tabla).
  { subst tabla1. destruct (ImagenProducto.es_principal self); [|done].
    apply dom_clear_principal. }
  assert (Hsize : size tabla1 = size tabla).
  { subst tabla1. destruct (ImagenProducto.es_principal self); [|done].
    apply map_size_fmap. }
  split_and!.
  - eexists. split; [reflexivity|]. apply lookup_insert_eq.
  - reflexivity.
  - rewrite <- Hdom. apply dom_insert_subseteq.
  - intros Hpk. rewrite map_size_insert_None; [by rewrite Hsize|].
    apply not_elem_of_dom. rewrite Hdom. apply not_elem_of_dom.
    by apply save_key_fresh.
  - intros k Hpk Hk. unfold ImagenProducto.save_key. rewrite Hpk.
    rewrite map_size_insert_Some; [done|].
    apply elem_of_dom. rewrite Hdom. by apply elem_of_dom.
Qed.

Lemma save_imagen_guarda_witness :
  size (ImagenProducto.save Muestra.imagenes
          (ImagenProducto.Build None 1 "productos/c.png" 2 true)).2 = 3%nat
  ∧ size (ImagenProducto.save Muestra.imagenes Muestra.imagen_B).2 = 2%nat.
Proof.
  split.
  - destruct (save_imagen_guarda Muestra.imagenes
                (ImagenProducto.Build None 1 "productos/c.png" 2 true))
      as (_ & _ & _ & Hnueva & _).
    rewrite Hnueva; reflexivity.
  - destruct (save_imagen_guarda Muestra.imagenes Muestra.imagen_B)
      as (_ & _ & _ & _ & Hvieja).
    rewrite (Hvieja 2%positive); [reflexivity|reflexivity|].
    exists Muestra.imagen_B. reflexivity.
Defined.

(** X11: on every other row [save] can only clear the principal flag: the
    row stays, with its key, product, file and order; its flag is never
    set; and a row of another product is not touched at all. *)
Theorem save_imagen_otras (tabla : gmap positive ImagenProducto.t)
    (self : ImagenProducto.t) (k : positive) (fila : ImagenProducto.t) :
  tabla !! k = Some fila →
  k ≠ ImagenProducto.save_key tabla self →
  ∃ fila', (ImagenProducto.save tabla self).2 !! k = Some fila'
           ∧ ImagenProducto.pk fila' = ImagenProducto.pk fila
           ∧ ImagenProducto.producto fila' = ImagenProducto.producto fila
           ∧ ImagenProducto.imagen fila' = ImagenProducto.imagen fila
           ∧ ImagenProducto.orden fila' = ImagenProducto.orden fila
           ∧ (ImagenProducto.es_principal fila' = true →
              ImagenProducto.es_principal fila = true)
           ∧ (ImagenProducto.producto fila ≠ ImagenProducto.producto self →
              fila' = fila).
Proof.
  intros Hk Hne. rewrite save_unfold. cbn [snd].
  rewrite lookup_insert_ne by done.
  destruct (ImagenProducto.es_principal self).
  - by apply clear_principal_fila.
  - exists fila. split_and!; done.
Qed.

Lemma save_imagen_otras_witness :
  ∃ fila',
    (ImagenProducto.save Muestra.imagenes
       (ImagenProducto.set_es_principal true Muestra.imagen_B)).2 !! 1%positive = Some fila'
    ∧ ImagenProducto.imagen fila' = "productos/a.png"%string.
Proof.
  destruct (save_imagen_otras Muestra.imagenes
              (ImagenProducto.set_es_principal true Muestra.imagen_B)
              1%positive Muestra.imagen_A)
    as (fila' & Hfila & _ & _ & Himg & _).
  - reflexivity.
  - vm_compute. discriminate.
  - exists fila'. split; [exact Hfila|exact Himg].
Defined.

Lemma clear_principal_idemp (p : positive) (tabla : gmap positive ImagenProducto.t) :
  ImagenProducto.clear_principal p (ImagenProducto.clear_principal p tabla)
  = ImagenProducto.clear_principal p tabla.
Proof.
  apply map_eq. intros k. rewrite !lookup_clear_principal.
  destruct (tabla !! k) as [fila|]; [|done]. simpl. f_equal.
  destruct (Pos.eqb (ImagenProducto.producto fila) p) eqn:Hp; simpl; [|by rewrite Hp].
  destruct (ImagenProducto.es_principal fila) eqn:He; simpl.
  - by rewrite andb_false_r.
  - by rewrite Hp, He.
Qed.

Lemma clear_principal_insert (p : positive) (tabla : gmap positive ImagenProducto.t)
    (k : positive) (fila : ImagenProducto.t) :
  <[k := fila]> (ImagenProducto.clear_principal p (<[k := fila]> tabla))
  = <[k := fila]> (ImagenProducto.clear_principal p tabla).
Proof.
  apply map_eq. intros k'. destruct (decide (k' = k)) as [->|Hne].
  - by rewrite !lookup_insert_eq.
  - rewrite !lookup_insert_ne by done.
    rewrite !lookup_clear_principal. by rewrite lookup_insert_ne by done.
Qed.

(** X12: saving the instance that [save] returned changes nothing any
    more: the same instance comes back and the table is the same. *)
Theorem save_imagen_idempotente (tabla : gmap positive ImagenProducto.t)
    (self : ImagenProducto.t) :
  ImagenProducto.save (ImagenProducto.save tabla self).2 (ImagenProducto.save tabla self).1
  = ImagenProducto.save tabla self.
Proof.
  rewrite (save_unfold tabla self). cbn [fst snd].
  set (k := ImagenProducto.save_key tabla self).
  set (self' := ImagenProducto.set_pk (Some k) self).
  rewrite save_unfold.
  change (ImagenProducto.save_key _ self') with k.
  change (ImagenProducto.set_pk (Some k) self') with self'.
  change (ImagenProducto.es_principal self') with (ImagenProducto.es_principal self).
  change (ImagenProducto.producto self') with (ImagenProducto.producto self).
  cbv zeta. f_equal.
  destruct (ImagenProducto.es_principal self).
  - by rewrite clear_principal_insert, clear_principal_idemp.
  - apply insert_insert_eq.
Qed.

(** ** ImagenProducto.Meta.ordering: the images of a product *)

Lemma precede_imagen_spec (a b : ImagenProducto.t) :
  ImagenProducto.precede a b ↔
  (ImagenProducto.es_principal a = true ∧ ImagenProducto.es_principal b = false)
  ∨ (ImagenProducto.es_principal a = ImagenProducto.es_principal b
     ∧ ImagenProducto.orden a ≤ ImagenProducto.orden b).
Proof.
  unfold ImagenProducto.precede, ImagenProducto.ordering.
  cbn [ImagenProducto.compara ImagenProducto.compara_campo].
  change (ImagenProducto.clave "es_principal" b) with (Z.b2z (ImagenProducto.es_principal b)).
  change (ImagenProducto.clave "es_principal" a) with (Z.b2z (ImagenProducto.es_principal a)).
  change (ImagenProducto.clave "orden" a) with (ImagenProducto.orden a).
  change (ImagenProducto.clave "orden" b) with (ImagenProducto.orden b).
  destruct (ImagenProducto.es_principal a), (ImagenProducto.es_principal b); simpl;
    try (destruct (Z.compare_spec (ImagenProducto.orden a) (ImagenProducto.orden b)));
    (split; [intros Hcmp|intros [[? ?]|[? ?]]]);
    try done; try lia;
    first [left; split; done | right; split; [done|lia]].
Qed.

#[local] Instance precede_imagen_total : Total ImagenProducto.precede.
Proof.
  intros a b. rewrite !precede_imagen_spec.
  destruct (ImagenProducto.es_principal a), (ImagenProducto.es_principal b);
    destruct (Z.le_ge_cases (ImagenProducto.orden a) (ImagenProducto.orden b));
    auto.
Qed.

#[local] Instance precede_imagen_trans : Transitive ImagenProducto.precede.
Proof.
  intros a b c. rewrite !precede_imagen_spec.
  destruct (ImagenProducto.es_principal a), (ImagenProducto.es_principal b),
    (ImagenProducto.es_principal c);
    intros [[? ?]|[? ?]] [[? ?]|[? ?]]; try done;
    first [by left | right; split; [done|lia]].
Qed.

Lemma elem_of_imagenes (tabla : gmap positive ImagenProducto.t) (p : positive)
    (fila : ImagenProducto.t) :
  fila ∈ ImagenProducto.imagenes tabla p ↔
  (∃ k, tabla !! k = Some fila) ∧ ImagenProducto.producto fila = p.
Proof.
  unfold ImagenProducto.imagenes. rewrite merge_sort_Permutation.
  rewrite elem_of_qs_filter, elem_of_qs_all. by rewrite Pos.eqb_eq.
Qed.

Lemma imagenes_sorted (tabla : gmap positive ImagenProducto.t) (p : positive) :
  StronglySorted ImagenProducto.precede (ImagenProducto.imagenes tabla p).
Proof. apply StronglySorted_merge_sort; apply _. Qed.

(** X14: the images of a product are the rows of that product in the
    table, each as often as the table has it; the principal one comes
    first and the others follow by ascending [orden]. *)
Theorem imagenes_spec (tabla : gmap positive ImagenProducto.t) (p : positive) :
  ImagenProducto.imagenes tabla p
  ≡ₚ filter (λ fila, ImagenProducto.producto fila = p) (qs_all tabla)
  ∧ (∀ fila, fila ∈ ImagenProducto.imagenes tabla p ↔
             (∃ k, tabla !! k = Some fila) ∧ ImagenProducto.producto fila = p)
  ∧ ∀ (i j : nat) (a b : ImagenProducto.t),
      (i < j)%nat →
      ImagenProducto.imagenes tabla p !! i = Some a →
      ImagenProducto.imagenes tabla p !! j = Some b →
      (ImagenProducto.es_principal b = true → ImagenProducto.es_principal a = true)
      ∧ (ImagenProducto.es_principal a = ImagenProducto.es_principal b →
         ImagenProducto.orden a ≤ ImagenProducto.orden b).
Proof.
  split_and!.
  - unfold ImagenProducto.imagenes. rewrite merge_sort_Permutation.
    unfold qs_filter. generalize (qs_all tabla). intros filas.
    induction filas as [|fila filas IH]; [done|].
    rewrite filter_cons. simpl.
    destruct (Pos.eqb_spec (ImagenProducto.producto fila) p) as [Hp|Hp].
    + rewrite decide_True by done. by rewrite IH.
    + by rewrite decide_False by done.
  - apply elem_of_imagenes.
  - intros i j a b Hij Ha Hb.
    assert (Hab : ImagenProducto.precede a b).
    { eapply (StronglySorted_lookup _ _ i j); [apply imagenes_sorted|done..]. }
    apply precede_imagen_spec in Hab as [[Hda Hdb]|[Hd Hf]].
    + split; [done|]. congruence.
    + split; [congruence|done].
Qed.

(** X15: after saving an image flagged as principal, the images of its
    product start with the saved image. *)
Theorem save_principal_primera (tabla : gmap positive ImagenProducto.t)
    (self : ImagenProducto.t) :
  ImagenProducto.es_principal self = true →
  head (ImagenProducto.imagenes (ImagenProducto.save tabla self).2
          (ImagenProducto.producto self))
  = Some (ImagenProducto.save tabla self).1.
Proof.
  intros Hprin.
  set (tabla' := (ImagenProducto.save tabla self).2).
  set (self' := (ImagenProducto.save tabla self).1).
  set (p := ImagenProducto.producto self).
  assert (Hself' : tabla' !! ImagenProducto.save_key tabla self = Some self'
                   ∧ ImagenProducto.producto self' = p
                   ∧ ImagenProducto.es_principal self' = true).
  { subst tabla' self'. rewrite save_unfold. cbn [fst snd].
    split_and!; [apply lookup_insert_eq|done|done]. }
  destruct Hself' as (Hlook & Hprod & Hflag).
  assert (Hin : self' ∈ ImagenProducto.imagenes tabla' p).
  { apply elem_of_imagenes. eauto. }
  apply list_elem_of_lookup_1 in Hin as [j Hj].
  rewrite head_lookup.
  destruct j as [|j]; [done|].
  destruct (ImagenProducto.imagenes tabla' p !! 0%nat) as [a|] eqn:Ha.
  2:{ apply lookup_ge_None in Ha. apply lookup_lt_Some in Hj. lia. }
  assert (Hab : ImagenProducto.precede a self').
  { eapply (StronglySorted_lookup _ _ 0 (S j)); [apply imagenes_sorted|lia|done..]. }
  assert (Ha_in : a ∈ ImagenProducto.imagenes tabla' p).
  { by eapply list_elem_of_lookup_2. }
  apply elem_of_imagenes in Ha_in as [[k Hk] Ha_prod].
  apply precede_imagen_spec in Hab as [[Hda Hdb]|[Hd _]]; [congruence|].
  assert (Hprincipales : ImagenProducto.principales tabla' p !! k = Some a).
  { unfold ImagenProducto.principales. apply map_lookup_filter_Some.
    split; [done|]. simpl. split; [done|congruence]. }
  subst tabla' p. rewrite save_principal_singleton in Hprincipales by done.
  apply lookup_singleton_Some in Hprincipales as [_ <-]. done.
Qed.

Lemma save_principal_primera_witness :
  head (ImagenProducto.imagenes
          (ImagenProducto.save Muestra.imagenes
             (ImagenProducto.set_es_principal true Muestra.imagen_B)).2 1%positive)
  = Some (ImagenProducto.set_es_principal true Muestra.imagen_B).
Proof.
  apply (save_principal_primera Muestra.imagenes
           (ImagenProducto.set_es_principal true Muestra.imagen_B)).
  reflexivity.
Defined.

(** The sample images: A is the principal one and comes first; once B is
    saved as principal, B comes first. *)
Example imagenes_muestra :
  ImagenProducto.imagenes Muestra.imagenes 1%positive
  = [Muestra.imagen_A; Muestra.imagen_B]
  ∧ ImagenProducto.imagenes
      (ImagenProducto.save Muestra.imagenes
         (ImagenProducto.set_es_principal true Muestra.imagen_B)).2 1%positive
    = [ImagenProducto.set_es_principal true Muestra.imagen_B;
       ImagenProducto.set_es_principal false Muestra.imagen_A].
Proof. split; vm_compute; reflexivity. Qed.

Lemma map_size_le_1_lookup {A} (m : gmap positive A) (k1 k2 : positive) (x1 x2 : A) :
  (size m ≤ 1)%nat → m !! k1 = Some x1 → m !! k2 = Some x2 → k1 = k2.
Proof.
  intros Hsize H1 H2. destruct (decide (k1 = k2)) as [|Hne]; [done|].
  assert (Hsub : <[k1 := x1]> {[k2 := x2]} ⊆ m).
  { apply map_subseteq_spec. intros k x Hk.
    destruct (decide (k = k1)) as [->|Hk1].
    - rewrite lookup_insert_eq in Hk. congruence.
    - rewrite lookup_insert_ne in Hk by done.
      apply lookup_singleton_Some in Hk as [<- <-]. done. }
  apply map_subseteq_size in Hsub.
  rewrite map_size_insert_None in Hsub by (by rewrite lookup_singleton_ne).
  rewrite map_size_singleton in Hsub. lia.
Qed.

(** X16: in a table built by saves, an image flagged as principal is the
    first of the images of its product. *)
Theorem alcanzable_principal_primera (tabla : gmap positive ImagenProducto.t)
    (k : positive) (fila : ImagenProducto.t) :
  ImagenProducto.alcanzable tabla →
  tabla !! k = Some fila →
  ImagenProducto.es_principal fila = true →
  head (ImagenProducto.imagenes tabla (ImagenProducto.producto fila)) = Some fila.
Proof.
  intros Halc Hk Hflag.
  set (p := ImagenProducto.producto fila).
  assert (Hin : fila ∈ ImagenProducto.imagenes tabla p).
  { apply elem_of_imagenes. eauto. }
  apply list_elem_of_lookup_1 in Hin as [j Hj].
  rewrite head_lookup.
  destruct j as [|j]; [done|].
  destruct (ImagenProducto.imagenes tabla p !! 0%nat) as [a|] eqn:Ha.
  2:{ apply lookup_ge_None in Ha. apply lookup_lt_Some in Hj. lia. }
  assert (Hab : ImagenProducto.precede a fila).
  { eapply (StronglySorted_lookup _ _ 0 (S j)); [apply imagenes_sorted|lia|done..]. }
  assert (Ha_in : a ∈ ImagenProducto.imagenes tabla p).
  { by eapply list_elem_of_lookup_2. }
  apply elem_of_imagenes in Ha_in as [[ka Hka] Ha_prod].
  apply precede_imagen_spec in Hab as [[Hda Hdb]|[Hd _]]; [congruence|].
  assert (ka = k) as ->.
  { apply (map_size_le_1_lookup (ImagenProducto.principales tabla p) ka k a fila).
    - by apply alcanzable_a_lo_mas_uno.
    - apply map_lookup_filter_Some. split; [done|]. simpl. split; [done|congruence].
    - apply map_lookup_filter_Some. split; [done|]. simpl. done. }
  congruence.
Qed.

Lemma alcanzable_principal_primera_witness :
  head (ImagenProducto.imagenes
          (ImagenProducto.save
             (ImagenProducto.save ∅ (ImagenProducto.Build None 1 "productos/b.png" 0 false)).2
             (ImagenProducto.Build None 1 "productos/a.png" 5 true)).2
          1%positive)
  = Some (ImagenProducto.Build (Some 2%positive) 1 "productos/a.png" 5 true).
Proof.
  apply (alcanzable_principal_primera _ 2%positive
           (ImagenProducto.Build (Some 2%positive) 1 "productos/a.png" 5 true)).
  - do 2 apply ImagenProducto.alcanzable_save. apply ImagenProducto.alcanzable_vacia.
  - reflexivity.
  - reflexivity.
Defined.

(** ** Producto.save: the unique slug *)

Section SaveSlugUnico.

Variable slugify : string → string.
Variable ahora : Z.




End SaveSlugUnico.



(** ** Producto.Meta.ordering: the head of the listing *)

(** X19: when some product of the table is featured, the listing starts
    with a featured product, and none of the featured products was created
    after it. *)
Theorem listado_primero_destacado (tabla : gmap positive Producto.t)
    (k : positive) (p : Producto.t) :
  tabla !! k = Some p →
  Producto.destacado p = true →
  ∃ a, head (Producto.listado tabla) = Some a
       ∧ Producto.destacado a = true
       ∧ Producto.fecha_creacion p ≤ Producto.fecha_creacion a.
Proof.
  intros Hk Hdest.
  assert (Hin : p ∈ Producto.listado tabla).
  { unfold Producto.listado. rewrite merge_sort_Permutation. apply elem_of_qs_all. eauto. }
  apply list_elem_of_lookup_1 in Hin as [j Hj].
  rewrite head_lookup.
  destruct j as [|j].
  { exists p. split_and!; [done|done|lia]. }
  destruct (Producto.listado tabla !! 0%nat) as [a|] eqn:Ha.
  2:{ apply lookup_ge_None in Ha. apply lookup_lt_Some in Hj. lia. }
  exists a. split; [done|].
  assert (Hab : Producto.precede a p).
  { eapply (StronglySorted_lookup _ (Producto.listado tabla) 0 (S j)); [|lia|done..].
    apply StronglySorted_merge_sort; apply _. }
  apply precede_spec in Hab as [[Hda Hdb]|[Hd Hf]]; [congruence|].
  split; [congruence|done].
Qed.

Lemma listado_primero_destacado_witness :
  ∃ a, head (Producto.listado Muestra.productos) = Some a
       ∧ Producto.destacado a = true
       ∧ Producto.fecha_creacion Muestra.cinturon ≤ Producto.fecha_creacion a.
Proof.
  apply (listado_primero_destacado Muestra.productos 2%positive Muestra.cinturon);
    reflexivity.
Defined.

(** ** Producto.save: what reaches the table *)

(** X20: when the write is accepted, the returned instance is the row
    stored under its primary key and every other row of the table is as
    before; the instance keeps its name, description, category and price,
    [fecha_actualizacion] is the time of the save, and [fecha_creacion] is
    that time for a row that is new and the instance's own value when the
    row existed. *)
Theorem save_producto_guarda (slugify : string → string) (ahora : Z)
    (tabla tabla' : gmap positive Producto.t) (self self' : Producto.t) :
  Producto.save slugify ahora tabla self = (self', Guardado tabla') →
  ∃ k, Producto.pk self' = Some k
       ∧ tabla' !! k = Some self'
       ∧ (∀ k', k' ≠ k → tabla' !! k' = tabla !! k')
       ∧ (∀ k0, Producto.pk self = Some k0 → k = k0)
       ∧ Producto.nombre self' = Producto.nombre self
       ∧ Producto.descripcion self' = Producto.descripcion self
       ∧ Producto.categoria self' = Producto.categoria self
       ∧ Producto.precio self' = Producto.precio self
       ∧ Producto.fecha_actualizacion self' = ahora
       ∧ (tabla !! k = None → Producto.fecha_creacion self' = ahora)
       ∧ (is_Some (tabla !! k) →
          Producto.fecha_creacion self' = Producto.fecha_creacion self).
Proof.
  unfold Producto.save, Producto.Model_save.
  set (self1 := if negb (str_truthy (Producto.slug self))
                then Producto.set_slug (slugify (Producto.nombre self)) self
                else self).
  assert (Hcampos : Producto.pk self1 = Producto.pk self
                    ∧ Producto.nombre self1 = Producto.nombre self
                    ∧ Producto.descripcion self1 = Producto.descripcion self
                    ∧ Producto.categoria self1 = Producto.categoria self
                    ∧ Producto.precio self1 = Producto.precio self
                    ∧ Producto.fecha_creacion self1 = Producto.fecha_creacion self).
  { subst self1. destruct (negb (str_truthy (Producto.slug self))); split_and!; done. }
  destruct Hcampos as (Hpk & Hnombre & Hdesc & Hcat & Hprecio & Hcreacion).
  rewrite Hpk.
  set (k := match Producto.pk self with
            | Some k => k
            | None => fresh (dom tabla)
            end).
  destruct (Producto.slug_ocupado tabla k (Producto.slug self1)); [done|].
  intros [= <- <-]. exists k. cbn.
  split_and!; try done.
  - apply lookup_insert_eq.
  - intros k' Hne. by apply lookup_insert_ne.
  - intros k0 Hk0. subst k. by rewrite Hk0.
  - intros Hnone. by rewrite bool_decide_eq_true_2.
  - intros [fila Hfila]. rewrite bool_decide_eq_false_2; [done|]. congruence.
Qed.

Lemma save_producto_guarda_witness :
  ∃ k, Producto.pk (Producto.save slugify_ascii 10 ∅ Muestra.camiseta_nueva).1 = Some k
       ∧ Producto.fecha_actualizacion
           (Producto.save slugify_ascii 10 ∅ Muestra.camiseta_nueva).1 = 10.
Proof.
  destruct (save_producto_guarda slugify_ascii 10 ∅
              (<[1%positive := (Producto.save slugify_ascii 10 ∅ Muestra.camiseta_nueva).1]> ∅)
              Muestra.camiseta_nueva
              (Producto.save slugify_ascii 10 ∅ Muestra.camiseta_nueva).1)
    as (k & Hpk & _ & _ & _ & _ & _ & _ & _ & Hact & _).
  - vm_compute. reflexivity.
  - exists k. split; [exact Hpk|exact Hact].
Defined.
